(** * FileUpload.jsx: the file-submission state machine

    A shallow embedding of
    [label-data-organizer-frontend/src/components/FileUpload.jsx]:
    the validator ([validateAndSetFile]), the transfer orchestrator
    ([handleUpload]) and the platform operations they rely on
    (truthiness, [String.prototype.match] with the filename pattern,
    [JSON.parse], and the rule by which axios resolves or rejects). *)

From Stdlib Require Import ZArith NArith List String Ascii Bool Lia.
From stdpp Require Import base option list gmap.

Local Open Scope N_scope.

(** ** JavaScript strings

    A JavaScript string is a sequence of UTF-16 code units.  Literals of the
    source are ASCII and are written [js "..."]; the code unit of the double
    quote is [dquote]. *)

Definition jsstring : Type := list N.

Definition js (s : string) : jsstring :=
  map N_of_ascii (list_ascii_of_string s).

Definition dquote : N := 34.

(** [s === t] on strings. *)
Definition str_eq (s t : jsstring) : bool := bool_decide (s = t).

(** ** JavaScript values *)

(** A number read by [JSON.parse]: [(-1)^negative * mantissa * 10^exponent10],
    kept exact.  The only thing the component asks of a number is its
    truthiness. *)
Record number := Number { negative : bool; mantissa : N; exponent10 : Z }.

#[warnings="-register-all"]
Inductive value :=
| VUndefined
| VNull
| VBool (b : bool)
| VNumber (n : number)
| VString (s : jsstring)
| VArray (elements : list value)
| VObject (properties : list (jsstring * value)).

(** A decimal rounds to the double [0] when it is zero or at most [2^-1075],
    half of the least positive double (round to nearest, ties to even). *)
Definition rounds_to_zero (n : number) : bool :=
  (mantissa n =? 0) ||
  ((exponent10 n <? 0)%Z &&
   (Z.of_N (mantissa n) * 2 ^ 1075 <=? 10 ^ (- exponent10 n))%Z).

(** [ToBoolean]. *)
Definition ToBoolean (v : value) : bool :=
  match v with
  | VUndefined | VNull => false
  | VBool b => b
  | VNumber n => negb (rounds_to_zero n)
  | VString s => match s with [] => false | _ => true end
  | VArray _ | VObject _ => true
  end.

(** [a || b]. *)
Definition or_else (a b : value) : value := if ToBoolean a then a else b.

(** The own property [k] of an object built by [JSON.parse]: of two members
    with the same name the later one wins. *)
Fixpoint own_property (props : list (jsstring * value)) (k : jsstring) : value :=
  match props with
  | [] => VUndefined
  | (k', v) :: rest =>
      match own_property rest k with
      | VUndefined => if str_eq k' k then v else VUndefined
      | later => later
      end
  end.

(** ** Regular expressions: the pattern of [contentDisposition.match]

    The pattern of line 114 is [filename=Q?(.+)Q?] under the [i] flag, [Q]
    being the double quote.  Such a literal is a sequence of single-character terms, each taken once,
    optionally ([x?], greedy) or at least once inside a capture group
    ([(x+)], greedy).  [re_match] is the backtracking matcher of the
    language: a greedy term first tries to take a character and gives it
    back only when the rest of the pattern fails. *)

Inductive charset :=
| Lit (c : N)   (* a pattern character, compared under the [i] flag *)
| Dot.          (* [.]: anything but a line terminator *)

Inductive term :=
| One (c : charset)
| Opt (c : charset)
| GroupPlus (c : charset).

(** Case folding of the [i] flag.  Without the [u] flag a code unit above
    127 never folds to an ASCII one, so against the ASCII characters of this
    pattern only the ASCII letters fold. *)
Definition canonicalize (c : N) : N :=
  if (97 <=? c) && (c <=? 122) then c - 32 else c.

Definition is_line_terminator (c : N) : bool :=
  (c =? 10) || (c =? 13) || (c =? 8232) || (c =? 8233).

Definition charset_matches (cs : charset) (c : N) : bool :=
  match cs with
  | Lit p => canonicalize p =? canonicalize c
  | Dot => negb (is_line_terminator c)
  end.

(** The result of a successful match from a fixed position: the text
    matched and the captures, in order. *)
Definition match_result : Type := jsstring * list jsstring.

Definition took (c : N) (r : option match_result) : option match_result :=
  match r with
  | Some (whole, caps) => Some (c :: whole, caps)
  | None => None
  end.

(** [(x+)] followed by the rest of the pattern, [rest]: take as many
    characters as match, then give them back one by one until the rest
    matches.  The result is the capture and the match of group and rest. *)
Fixpoint plus_loop (cs : charset) (rest : jsstring → option match_result)
    (s : jsstring) : option (jsstring * match_result) :=
  match s with
  | c :: s' =>
      if charset_matches cs c then
        match plus_loop cs rest s' with
        | Some (g, (whole, caps)) => Some (c :: g, (c :: whole, caps))
        | None =>
            match rest s' with
            | Some (whole, caps) => Some ([c], (c :: whole, caps))
            | None => None
            end
        end
      else None
  | [] => None
  end.

Fixpoint re_match (p : list term) (s : jsstring) : option match_result :=
  match p with
  | [] => Some ([], [])
  | One cs :: p' =>
      match s with
      | c :: s' => if charset_matches cs c then took c (re_match p' s') else None
      | [] => None
      end
  | Opt cs :: p' =>
      let taken :=
        match s with
        | c :: s' => if charset_matches cs c then took c (re_match p' s') else None
        | [] => None
        end in
      match taken with
      | Some r => Some r
      | None => re_match p' s
      end
  | GroupPlus cs :: p' =>
      match plus_loop cs (re_match p') s with
      | Some (g, (whole, caps)) => Some (whole, g :: caps)
      | None => None
      end
  end.

(** [RegExp.prototype.exec] of a non-global expression: the first position
    from which the pattern matches. *)
Fixpoint re_exec (p : list term) (s : jsstring) : option match_result :=
  match re_match p s with
  | Some r => Some r
  | None =>
      match s with
      | [] => None
      | _ :: s' => re_exec p s'
      end
  end.

(** [str.match(re)]: [null] or the array [[whole; capture 1; ...]]. *)
Definition String_match (s : jsstring) (p : list term) : option (list jsstring) :=
  match re_exec p s with
  | Some (whole, caps) => Some (whole :: caps)
  | None => None
  end.

(** The pattern of line 114. *)
Definition filename_re : list term :=
  map (λ c, One (Lit c)) (js "filename=")
  ++ [Opt (Lit dquote); GroupPlus Dot; Opt (Lit dquote)].

(** ** [JSON.parse]

    The JSON grammar of ECMA-404 over code units, by recursive descent.
    Every call below the first one follows a consumed character, or a call
    that is itself followed by one, so [2 * length s + 2] levels are enough
    for the text [s]. *)

Definition is_ws (c : N) : bool :=
  (c =? 32) || (c =? 9) || (c =? 10) || (c =? 13).

Fixpoint skip_ws (s : jsstring) : jsstring :=
  match s with
  | c :: s' => if is_ws c then skip_ws s' else s
  | [] => []
  end.

Definition is_digit (c : N) : bool := (48 <=? c) && (c <=? 57).

Definition hex_value (c : N) : option N :=
  if is_digit c then Some (c - 48)
  else if (97 <=? c) && (c <=? 102) then Some (c - 87)
  else if (65 <=? c) && (c <=? 70) then Some (c - 55)
  else None.

(** The character an escape [\c] stands for ([\u] apart). *)
Definition simple_escape (c : N) : option N :=
  if c =? 34 then Some 34          (* \ quote *)
  else if c =? 92 then Some 92     (* \ \ *)
  else if c =? 47 then Some 47     (* \/ *)
  else if c =? 98 then Some 8      (* \b *)
  else if c =? 102 then Some 12    (* \f *)
  else if c =? 110 then Some 10    (* \n *)
  else if c =? 114 then Some 13    (* \r *)
  else if c =? 116 then Some 9     (* \t *)
  else None.

(** The characters of a string after its opening quote, up to and past the
    closing one. *)
Fixpoint parse_string_body (s : jsstring) : option (jsstring * jsstring) :=
  match s with
  | [] => None
  | c :: rest =>
      if c =? 34 then Some ([], rest)
      else if c =? 92 then
        match rest with
        | e :: rest1 =>
            if e =? 117 then
              match rest1 with
              | h1 :: h2 :: h3 :: h4 :: rest2 =>
                  a ← hex_value h1; b ← hex_value h2;
                  c ← hex_value h3; d ← hex_value h4;
                  '(str, r) ← parse_string_body rest2;
                  Some (((a * 16 + b) * 16 + c) * 16 + d :: str, r)
              | _ => None
              end
            else
              x ← simple_escape e;
              '(str, r) ← parse_string_body rest1;
              Some (x :: str, r)
        | [] => None
        end
      else if c <? 32 then None
      else '(str, r) ← parse_string_body rest; Some (c :: str, r)
  end.

Fixpoint take_digits (s : jsstring) : list N * jsstring :=
  match s with
  | c :: s' =>
      if is_digit c then let '(ds, r) := take_digits s' in (c - 48 :: ds, r)
      else ([], s)
  | [] => ([], [])
  end.

Definition decimal (ds : list N) : N := fold_left (λ acc d, acc * 10 + d) ds 0.

(** [-? int frac? exp?] *)
Definition parse_number (s : jsstring) : option (number * jsstring) :=
  let '(neg, s1) :=
    match s with
    | c :: r => if c =? 45 then (true, r) else (false, s)
    | [] => (false, s)
    end in
  '(int, s2) ←
    match s1 with
    | c :: r =>
        if c =? 48 then Some ([0], r)
        else if is_digit c then Some (take_digits s1)
        else None
    | [] => None
    end;
  '(frac, s3) ←
    match s2 with
    | c :: r =>
        if c =? 46 then
          match take_digits r with
          | ([], _) => None
          | (ds, r') => Some (ds, r')
          end
        else Some ([], s2)
    | [] => Some ([], s2)
    end;
  '(exp, s4) ←
    match s3 with
    | c :: r =>
        if (c =? 101) || (c =? 69) then
          let '(minus, r1) :=
            match r with
            | sg :: r' =>
                if sg =? 45 then (true, r')
                else if sg =? 43 then (false, r')
                else (false, r)
            | [] => (false, r)
            end in
          match take_digits r1 with
          | ([], _) => None
          | (ds, r2) =>
              Some (if minus then (- Z.of_N (decimal ds))%Z else Z.of_N (decimal ds), r2)
          end
        else Some (0%Z, s3)
    | [] => Some (0%Z, s3)
    end;
  Some (Number neg (decimal (int ++ frac)) (exp - Z.of_nat (length frac)), s4).

(** [s] without the prefix [p]. *)
Fixpoint strip_prefix (p s : jsstring) : option jsstring :=
  match p, s with
  | [], _ => Some s
  | a :: p', b :: s' => if a =? b then strip_prefix p' s' else None
  | _ :: _, [] => None
  end.

Fixpoint parse_value (fuel : nat) (s : jsstring) {struct fuel}
  : option (value * jsstring) :=
  match fuel with
  | O => None
  | S fuel =>
      match skip_ws s with
      | [] => None
      | c :: rest =>
          if c =? 123 then                      (* { *)
            match skip_ws rest with
            | c' :: rest' =>
                if c' =? 125 then Some (VObject [], rest')
                else '(ms, r) ← parse_members fuel rest; Some (VObject ms, r)
            | [] => None
            end
          else if c =? 91 then                  (* [ *)
            match skip_ws rest with
            | c' :: rest' =>
                if c' =? 93 then Some (VArray [], rest')
                else '(vs, r) ← parse_elements fuel rest; Some (VArray vs, r)
            | [] => None
            end
          else if c =? 34 then
            '(str, r) ← parse_string_body rest; Some (VString str, r)
          else if c =? 116 then
            r ← strip_prefix (js "rue") rest; Some (VBool true, r)
          else if c =? 102 then
            r ← strip_prefix (js "alse") rest; Some (VBool false, r)
          else if c =? 110 then
            r ← strip_prefix (js "ull") rest; Some (VNull, r)
          else
            '(n, r) ← parse_number (c :: rest); Some (VNumber n, r)
      end
  end
with parse_elements (fuel : nat) (s : jsstring) {struct fuel}
  : option (list value * jsstring) :=
  match fuel with
  | O => None
  | S fuel =>
      '(v, r) ← parse_value fuel s;
      match skip_ws r with
      | c :: r' =>
          if c =? 44 then '(vs, r'') ← parse_elements fuel r'; Some (v :: vs, r'')
          else if c =? 93 then Some ([v], r')
          else None
      | [] => None
      end
  end
with parse_members (fuel : nat) (s : jsstring) {struct fuel}
  : option (list (jsstring * value) * jsstring) :=
  match fuel with
  | O => None
  | S fuel =>
      match skip_ws s with
      | q :: r0 =>
          if q =? 34 then
            '(k, r1) ← parse_string_body r0;
            match skip_ws r1 with
            | colon :: r2 =>
                if colon =? 58 then
                  '(v, r3) ← parse_value fuel r2;
                  match skip_ws r3 with
                  | c :: r4 =>
                      if c =? 44 then
                        '(ms, r5) ← parse_members fuel r4; Some ((k, v) :: ms, r5)
                      else if c =? 125 then Some ([(k, v)], r4)
                      else None
                  | [] => None
                  end
                else None
            | [] => None
            end
          else None
      | [] => None
      end
  end.

(** [JSON.parse(text)]: [None] stands for the [SyntaxError]. *)
Definition JSON_parse (text : jsstring) : option value :=
  '(v, r) ← parse_value (2 * length text + 2) text;
  match skip_ws r with
  | [] => Some v
  | _ :: _ => None
  end.

(** ** The component's data *)

(** A [File] of the browser: the attributes the component reads, and its
    content. *)
Record File := { name : jsstring; type : jsstring; content : list N }.

(** The [error] state: [{ message, details }].  [setError({ message })]
    leaves [details] undefined, and a remote error may put any JSON value in
    either field. *)
Record Error := { message : value; details : value }.

(** The five [useState] cells of [FileUpload]. *)
Record State := {
  file : option File;
  isDragging : bool;
  isUploading : bool;
  error : Error;
  successMessage : jsstring
}.

(** The state of the first render (lines 23-27). *)
Definition initial_state : State :=
  {| file := None;
     isDragging := false;
     isUploading := false;
     error := {| message := VString []; details := VArray [] |};
     successMessage := [] |}.

(** The body of a response as axios hands it over: a [Blob], given by what
    its [text()] promise settles to ([None]: it rejects), or anything
    else. *)
Inductive Data :=
| BlobData (text : option jsstring)
| OtherData.

Record Response := {
  status : N;
  headers : gmap jsstring jsstring;
  data : Data
}.

(** What can be thrown inside [handleUpload]: the error axios rejects with,
    carrying the response when there was one, or an exception of the
    platform, which has no [response] property. *)
Inductive exn :=
| AxiosError (response : option Response)
| TypeError
| SyntaxError
| OtherError.

(** [err.response] *)
Definition exn_response (err : exn) : option Response :=
  match err with
  | AxiosError r => r
  | _ => None
  end.

Definition FormData : Type := list (jsstring * File).

Record Request := {
  url : jsstring;
  body : FormData;
  responseType : jsstring
}.

(** A download triggered through the temporary link (lines 104-122). *)
Record Download := {
  download : jsstring;              (* the link's [download] attribute *)
  payload : Data;
  content_type : option jsstring
}.

(** The component's state together with what it did to the outside: the
    requests issued, the downloads triggered, and the state the user saw at
    each [await]. *)
Record World := {
  state : State;
  requests : list Request;
  downloads : list Download;
  suspended : list State
}.

Definition with_state (w : World) (s : State) : World :=
  {| state := s; requests := requests w;
     downloads := downloads w; suspended := suspended w |}.

(** ** Statements: state and exceptions *)

Inductive completion (A : Type) :=
| Normal (a : A)
| Throw (e : exn).
Arguments Normal {A} a.
Arguments Throw {A} e.

Definition M (A : Type) : Type := World → completion A * World.

#[export] Instance M_ret : MRet M := λ A a w, (Normal a, w).

#[export] Instance M_bind : MBind M := λ A B f m w,
  match m w with
  | (Normal a, w') => f a w'
  | (Throw e, w') => (Throw e, w')
  end.

Definition throw {A} (e : exn) : M A := λ w, (Throw e, w).

(** [try { body } catch (err) { handler }] *)
Definition try_catch {A} (body : M A) (handler : exn → M A) : M A := λ w,
  match body w with
  | (Throw e, w') => handler e w'
  | done => done
  end.

(** [try { body } finally { fin }] *)
Definition try_finally {A} (body : M A) (fin : M unit) : M A := λ w,
  let '(c, w') := body w in
  match fin w' with
  | (Normal _, w'') => (c, w'')
  | (Throw e, w'') => (Throw e, w'')
  end.

Definition modify (f : State → State) : M unit := λ w,
  (Normal (), with_state w (f (state w))).

Definition setFile (f : option File) : M unit :=
  modify (λ s, {| file := f; isDragging := isDragging s;
                  isUploading := isUploading s; error := error s;
                  successMessage := successMessage s |}).

Definition setIsDragging (b : bool) : M unit :=
  modify (λ s, {| file := file s; isDragging := b;
                  isUploading := isUploading s; error := error s;
                  successMessage := successMessage s |}).

Definition setIsUploading (b : bool) : M unit :=
  modify (λ s, {| file := file s; isDragging := isDragging s;
                  isUploading := b; error := error s;
                  successMessage := successMessage s |}).

Definition setError (e : Error) : M unit :=
  modify (λ s, {| file := file s; isDragging := isDragging s;
                  isUploading := isUploading s; error := e;
                  successMessage := successMessage s |}).

Definition setSuccessMessage (m : jsstring) : M unit :=
  modify (λ s, {| file := file s; isDragging := isDragging s;
                  isUploading := isUploading s; error := error s;
                  successMessage := m |}).

(** [v.k] for the two names the component reads, [message] and [details]:
    a [TypeError] on [null] and [undefined], the own property of an object,
    [undefined] on the other values (neither name is an index, [length], or
    a property of a prototype). *)
Definition Get (v : value) (k : jsstring) : M value :=
  match v with
  | VUndefined | VNull => throw TypeError
  | VObject props => mret (own_property props k)
  | _ => mret VUndefined
  end.

(** ** The validator (lines 29-54) *)

Definition clearMessages : M unit :=
  setError {| message := VString []; details := VArray [] |};;
  setSuccessMessage [].

Definition invalid_file_type : jsstring :=
  js "Invalid file type. Please upload an Excel (.xlsx, .xls) or CSV (.csv) file.".

Definition validateAndSetFile (selectedFile : option File) : M unit :=
  clearMessages;;
  if match selectedFile with
     | Some f =>
         str_eq (type f)
           (js "application/vnd.openxmlformats-officedocument.spreadsheetml.sheet")
         || str_eq (type f) (js "application/vnd.ms-excel")
         || str_eq (type f) (js "text/csv")
     | None => false
     end
  then setFile selectedFile
  else
    setError {| message := VString invalid_file_type; details := VUndefined |};;
    setFile None.

(** [e.target.files[0]] is [undefined] on an empty selection. *)
Definition handleFileChange (files : list File) : M unit :=
  validateAndSetFile (head files).

(** [files] is [e.dataTransfer.files], when the event carries one. *)
Definition handleDrop (files : option (list File)) : M unit :=
  setIsDragging false;;
  match files with
  | Some (f :: _) => validateAndSetFile (Some f)
  | _ => mret ()
  end.

Definition handleDragOver : M unit := setIsDragging true.
Definition handleDragLeave : M unit := setIsDragging false.

(** The [ErrorMessage] component (line 5): its [details = []] default
    stands in for an undefined [details]; these are the details it gets to
    show. *)
Definition ErrorMessage_details (e : Error) : value :=
  match details e with
  | VUndefined => VArray []
  | d => d
  end.

(** ** The transfer orchestrator (lines 84-144) *)

(** What the network does with the one request of a submission. *)
Inductive Exchange :=
| NetworkFailure                (* no response at all *)
| Answered (r : Response).

(** What [handleUpload] meets outside the component. *)
Record Env := {
  VITE_API_BASE_URL : option jsstring;  (* [import.meta.env.VITE_API_BASE_URL] *)
  exchange : Exchange;
  download_throws : bool                (* the DOM calls of the download throw *)
}.

Definition default_fileName : jsstring := js "processed_data.xlsx".

(** Lines 112-117: the name the download is saved under, from the
    [content-disposition] header. *)
Definition resolve_fileName (contentDisposition : option jsstring) : jsstring :=
  match contentDisposition with
  | Some (c :: cd) =>
      match String_match (c :: cd) filename_re with
      | Some fileNameMatch =>
          if (length fileNameMatch =? 2)%nat
          then default default_fileName (fileNameMatch !! 1%nat)
          else default_fileName
      | None => default_fileName
      end
  | _ => default_fileName
  end.

Definition generic_error : Error :=
  {| message := VString (js "An unexpected error occurred."); details := VArray [] |}.

Definition processing_error : jsstring := js "An error occurred during processing.".

Definition please_select : jsstring := js "Please select a file first.".

Definition download_started : jsstring := js "File processed and download started!".

Section Orchestrator.

Variable env : Env.

(** The state the user sees while the handler waits. *)
Definition await_point : M unit := λ w,
  (Normal (),
   {| state := state w; requests := requests w;
      downloads := downloads w; suspended := suspended w ++ [state w] |}).

(** [await axios.post(url, data, { responseType })]: axios resolves with
    the response when its status is in [200, 300) and rejects
    otherwise. *)
Definition axios_post (u : jsstring) (b : FormData) (rt : jsstring) : M Response :=
  (λ w, (Normal (),
         {| state := state w;
            requests := requests w ++ [{| url := u; body := b; responseType := rt |}];
            downloads := downloads w; suspended := suspended w |}));;
  await_point;;
  match exchange env with
  | NetworkFailure => throw (AxiosError None)
  | Answered r =>
      if (200 <=? status r) && (status r <? 300) then mret r
      else throw (AxiosError (Some r))
  end.

(** [await blob.text()] *)
Definition Blob_text (text : option jsstring) : M jsstring :=
  await_point;;
  match text with
  | Some t => mret t
  | None => throw OtherError
  end.

Definition JSON_parse_stmt (text : jsstring) : M value :=
  match JSON_parse text with
  | Some v => mret v
  | None => throw SyntaxError
  end.

(** Lines 104-110 and 118-122: the blob, its object URL and the link that
    is clicked and removed, as one step. *)
Definition click_download_link (fileName : jsstring) (d : Data)
    (ct : option jsstring) : M unit :=
  if download_throws env then throw OtherError
  else λ w,
    (Normal (),
     {| state := state w; requests := requests w;
        downloads := downloads w
          ++ [{| download := fileName; payload := d; content_type := ct |}];
        suspended := suspended w |}).

Definition apiUrl : jsstring :=
  match VITE_API_BASE_URL env with
  | Some (c :: base) => c :: base
  | _ => js "http://localhost:5000"
  end ++ js "/api/upload-excel".

Definition handleUpload : M unit :=
  file ← (λ w, (Normal (file (state w)), w));
  match file with
  | None =>
      setError {| message := VString please_select; details := VUndefined |}
  | Some file =>
      clearMessages;;
      setIsUploading true;;
      let formData := [(js "excel_file", file)] in
      try_finally
        (try_catch
           (response ← axios_post apiUrl formData (js "blob");
            let contentDisposition := headers response !! js "content-disposition" in
            let fileName := resolve_fileName contentDisposition in
            click_download_link fileName (data response)
              (headers response !! js "content-type");;
            setSuccessMessage download_started;;
            setFile None)
           (λ err,
              errorData ←
                match exn_response err with
                | Some {| data := BlobData text |} =>
                    try_catch
                      (errText ← Blob_text text;
                       errJson ← JSON_parse_stmt errText;
                       m ← Get errJson (js "message");
                       d ← Get errJson (js "details");
                       mret {| message := or_else m (VString processing_error);
                               details := or_else d (VArray []) |})
                      (λ _, mret generic_error)
                | _ => mret generic_error
                end;
              setError errorData))
        (setIsUploading false)
  end.

End Orchestrator.

(** The world a handler leaves behind, and how it completes. *)
Definition exec {A} (m : M A) (w : World) : World := (m w).2.
Definition outcome {A} (m : M A) (w : World) : completion A := (m w).1.

Definition initial_world : World :=
  {| state := initial_state; requests := []; downloads := []; suspended := [] |}.

(** * Vocabulary of the properties *)

(** ** What the specification names *)

(** The accepted media types of the validator's contract. *)
Definition accepted_media_types : list jsstring :=
  [ js "application/vnd.openxmlformats-officedocument.spreadsheetml.sheet";
    js "application/vnd.ms-excel";
    js "text/csv" ].

(** No message is up: the value [clearMessages] puts in [error]. *)
Definition no_error : Error := {| message := VString []; details := VArray [] |}.

(** A response status of the 2xx class. *)
Definition is_2xx (r : Response) : bool := (200 <=? status r) && (status r <? 300).

(** The header has a filename parameter: the letters [filename=], in any
    case, followed by a character that is not a line terminator. *)
Definition has_filename_parameter (cd : jsstring) : Prop :=
  ∃ pre key c post,
    cd = pre ++ key ++ c :: post ∧
    map canonicalize key = map canonicalize (js "filename=") ∧
    is_line_terminator c = false.

(** [v.k] where it does not throw. *)
Definition property (v : value) (k : jsstring) : value :=
  match v with
  | VObject props => own_property props k
  | _ => VUndefined
  end.

(** The error signal as the specification words it: the body's message and
    details, and the fallbacks when one is missing. *)
Definition claimed_error (v : value) : Error :=
  {| message :=
       match property v (js "message") with
       | VUndefined => VString (js "An error occurred during processing.")
       | m => m
       end;
     details :=
       match property v (js "details") with
       | VUndefined => VArray []
       | d => d
       end |}.

(** ** The paths of a submission *)

(** The state shown while a submission of the staged file is in flight. *)
Definition in_flight (s : State) : State :=
  {| file := file s; isDragging := isDragging s; isUploading := true;
     error := no_error; successMessage := [] |}.

(** The one request of a submission of [f]. *)
Definition upload_request (env : Env) (f : File) : Request :=
  {| url := apiUrl env; body := [(js "excel_file", f)]; responseType := js "blob" |}.

(** The error signal lines 132-135 build from a parsed body. *)
Definition decoded_error (v : value) : Error :=
  {| message := or_else (property v (js "message")) (VString processing_error);
     details := or_else (property v (js "details")) (VArray []) |}.

(** The submission succeeds: a 2xx answer, and the download goes through. *)
Definition succeeds (env : Env) (r : Response) : Prop :=
  exchange env = Answered r ∧ is_2xx r = true ∧ download_throws env = false.

(** The submission fails, with the error signal it ends in and the number of
    times it waits for the text of the error body. *)
Inductive fails (env : Env) : Error → nat → Prop :=
| fails_network :
    exchange env = NetworkFailure → fails env generic_error 0
| fails_download r :
    exchange env = Answered r → is_2xx r = true → download_throws env = true →
    fails env generic_error 0
| fails_other_data r :
    exchange env = Answered r → is_2xx r = false → data r = OtherData →
    fails env generic_error 0
| fails_unreadable r :
    exchange env = Answered r → is_2xx r = false → data r = BlobData None →
    fails env generic_error 1
| fails_not_json r t :
    exchange env = Answered r → is_2xx r = false → data r = BlobData (Some t) →
    JSON_parse t = None →
    fails env generic_error 1
| fails_nullish r t v :
    exchange env = Answered r → is_2xx r = false → data r = BlobData (Some t) →
    JSON_parse t = Some v → v = VNull ∨ v = VUndefined →
    fails env generic_error 1
| fails_structured r t v :
    exchange env = Answered r → is_2xx r = false → data r = BlobData (Some t) →
    JSON_parse t = Some v → v ≠ VNull → v ≠ VUndefined →
    fails env (decoded_error v) 1.

(** The failures the generic message is for: no response, a download that
    throws, or an error response whose body is no blob, cannot be read as
    text, or is not JSON. *)
Inductive unstructured (env : Env) : Prop :=
| no_response :
    exchange env = NetworkFailure → unstructured env
| download_failed r :
    exchange env = Answered r → is_2xx r = true → download_throws env = true →
    unstructured env
| body_not_blob r :
    exchange env = Answered r → is_2xx r = false → data r = OtherData →
    unstructured env
| body_unreadable r :
    exchange env = Answered r → is_2xx r = false → data r = BlobData None →
    unstructured env
| body_not_json r t :
    exchange env = Answered r → is_2xx r = false → data r = BlobData (Some t) →
    JSON_parse t = None →
    unstructured env.

(** ** Sessions *)

(** What the user can do to the component.  A submission runs from the
    click to its settling: the button is disabled while one is in flight. *)
Inductive event :=
| FileChange (files : list File)
| DropFiles (files : option (list File))
| DragOver
| DragLeave
| Submit (env : Env).

Definition handle (ev : event) : M unit :=
  match ev with
  | FileChange files => handleFileChange files
  | DropFiles files => handleDrop files
  | DragOver => handleDragOver
  | DragLeave => handleDragLeave
  | Submit env => handleUpload env
  end.

(** The worlds a session can be in between two events. *)
Inductive reachable : World → Prop :=
| reachable_initial : reachable initial_world
| reachable_step w ev : reachable w → reachable (exec (handle ev) w).

(** Between events no submission is pending, and a staged file comes with no
    success message: staging clears it, and success unstages the file. *)
Definition at_rest (s : State) : Prop :=
  isUploading s = false ∧ (file s ≠ None → successMessage s = []).

(** ** Sample inputs *)

Definition sheet_csv : File :=
  {| name := js "labels.csv"; type := js "text/csv"; content := js "a,b" |}.

Definition notes_pdf : File :=
  {| name := js "notes.pdf"; type := js "application/pdf"; content := [37; 80; 68; 70] |}.

(** The world after the user picked [sheet_csv]. *)
Definition staged_world : World := exec (validateAndSetFile (Some sheet_csv)) initial_world.

(** [attachment; filename=], a quote, [report.xlsx], a quote. *)
Definition quoted_report_header : jsstring :=
  js "attachment; filename=" ++ [dquote] ++ js "report.xlsx" ++ [dquote].

Definition ok_response (disposition : option jsstring) : Response :=
  {| status := 200;
     headers :=
       match disposition with
       | Some d => {[ js "content-disposition" := d ]}
       | None => ∅
       end;
     data := BlobData None |}.

Definition answering (r : Response) : Env :=
  {| VITE_API_BASE_URL := None; exchange := Answered r; download_throws := false |}.

Definition error_response (st : N) (text : jsstring) : Response :=
  {| status := st; headers := ∅; data := BlobData (Some text) |}.

(** The body [{ message: Bad rows, details: [row 3 invalid] }] in JSON. *)
Definition bad_rows_body : jsstring :=
  js "{" ++ [dquote] ++ js "message" ++ [dquote] ++ js ":"
  ++ [dquote] ++ js "Bad rows" ++ [dquote] ++ js ","
  ++ [dquote] ++ js "details" ++ [dquote] ++ js ":["
  ++ [dquote] ++ js "row 3 invalid" ++ [dquote] ++ js "]}".

(** The body [{ message: (empty string), details: [row 3 invalid] }] in
    JSON. *)
Definition empty_message_body : jsstring :=
  js "{" ++ [dquote] ++ js "message" ++ [dquote] ++ js ":"
  ++ [dquote] ++ [dquote] ++ js ","
  ++ [dquote] ++ js "details" ++ [dquote] ++ js ":["
  ++ [dquote] ++ js "row 3 invalid" ++ [dquote] ++ js "]}".

(** ** The save name, in words *)

(** Nothing follows on the line: the text ends, or a line terminator comes
    next. *)
Definition ends_line (post : jsstring) : Prop :=
  match post with
  | [] => True
  | c :: _ => is_line_terminator c = true
  end.

(** A value without the double quote it opens with, when more follows the
    quote. *)
Definition without_leading_quote (v : jsstring) : jsstring :=
  match v with
  | q :: c :: r => if q =? dquote then c :: r else v
  | _ => v
  end.

(** ** The tree [FileUpload] returns (lines 147-202)

    The element tree the function returns for a state.  The [ErrorMessage]
    element is in it as [FileUpload] creates it, with its two props; what
    [ErrorMessage] returns for them (lines 5-19) is [ErrorMessage] below,
    and [displayed] puts the two together. *)

(** The upload button, when it is rendered: its [disabled] attribute and its
    text. *)
Record Button := { disabled : bool; label : jsstring }.

(** The child [error.message && <ErrorMessage ... />]: the element with its
    two props, or, for a falsy message, that message itself. *)
Inductive ErrorSlot :=
| ErrorPanel (message details : value)
| ErrorBlank (message : value).

Record View := {
  highlighted : bool;                (* the drop zone has the dragging classes *)
  prompt : jsstring;                 (* the text of the drop zone *)
  button : option Button;            (* [file && <button ...>] *)
  error_slot : ErrorSlot;
  success_slot : option jsstring     (* [successMessage && <p>...</p>] *)
}.

Definition render (s : State) : View :=
  {| highlighted := isDragging s;
     prompt :=
       match file s with
       | Some f => js "Selected: " ++ name f
       | None => js "Drag & drop a file or click to select"
       end;
     button :=
       match file s with
       | Some _ =>
           Some {| disabled := isUploading s;
                   label := if isUploading s then js "Processing..."
                            else js "Upload and Process File" |}
       | None => None
       end;
     error_slot :=
       if ToBoolean (message (error s))
       then ErrorPanel (message (error s)) (details (error s))
       else ErrorBlank (message (error s));
     success_slot :=
       match successMessage s with
       | [] => None
       | m => Some m
       end |}.

(** ** A submission and what happens meanwhile *)

(** What the user can do while a submission is in flight: the drop zone and
    the file input stay live, the button is disabled. *)
Inductive gesture :=
| Pick (files : list File)
| DropOn (files : option (list File))
| Over
| Leave.

Definition gesture_handler (g : gesture) : M unit :=
  match g with
  | Pick files => handleFileChange files
  | DropOn files => handleDrop files
  | Over => handleDragOver
  | Leave => handleDragLeave
  end.

Section Interleaving.

Variable env : Env.

(** The handlers that run before an awaited promise settles, each followed
    by the state it leaves on screen. *)
Fixpoint meanwhile (gs : list gesture) : M unit :=
  match gs with
  | [] => mret ()
  | g :: gs => gesture_handler g;; await_point;; meanwhile gs
  end.

(** [handleUpload] with the handlers that run at its two [await]s: [gs1]
    while the request is out, [gs2] while the text of an error body is
    read.  The continuation only calls setters, each on its own cell, so it
    acts on the state the handlers left. *)
Definition handleUpload_during (gs1 gs2 : list gesture) : M unit :=
  file ← (λ w, (Normal (file (state w)), w));
  match file with
  | None =>
      setError {| message := VString please_select; details := VUndefined |}
  | Some file =>
      clearMessages;;
      setIsUploading true;;
      let formData := [(js "excel_file", file)] in
      try_finally
        (try_catch
           (response ←
              ((λ w, (Normal (),
                      {| state := state w;
                         requests := requests w
                           ++ [{| url := apiUrl env; body := formData;
                                  responseType := js "blob" |}];
                         downloads := downloads w; suspended := suspended w |}));;
               await_point;;
               meanwhile gs1;;
               match exchange env with
               | NetworkFailure => throw (AxiosError None)
               | Answered r =>
                   if (200 <=? status r) && (status r <? 300) then mret r
                   else throw (AxiosError (Some r))
               end);
            let contentDisposition := headers response !! js "content-disposition" in
            let fileName := resolve_fileName contentDisposition in
            click_download_link env fileName (data response)
              (headers response !! js "content-type");;
            setSuccessMessage download_started;;
            setFile None)
           (λ err,
              errorData ←
                match exn_response err with
                | Some {| data := BlobData text |} =>
                    try_catch
                      (errText ←
                         (await_point;;
                          meanwhile gs2;;
                          match text with
                          | Some t => mret t
                          | None => throw OtherError
                          end);
                       errJson ← JSON_parse_stmt errText;
                       m ← Get errJson (js "message");
                       d ← Get errJson (js "details");
                       mret {| message := or_else m (VString processing_error);
                               details := or_else d (VArray []) |})
                      (λ _, mret generic_error)
                | _ => mret generic_error
                end;
              setError errorData))
        (setIsUploading false)
  end.

End Interleaving.

(** The world a submission of [f] leaves at its first [await]. *)
Definition begun (env : Env) (f : File) (w : World) : World :=
  {| state := in_flight (state w);
     requests := requests w ++ [upload_request env f];
     downloads := downloads w;
     suspended := suspended w ++ [in_flight (state w)] |}.

(** ** Sessions at the screen *)

(** The worlds the user can bring about: gestures, and clicks on the upload
    button when it is rendered and enabled, with whatever gestures are made
    while the submission is in flight. *)
Inductive on_screen : World → Prop :=
| on_screen_initial : on_screen initial_world
| on_screen_gesture w g :
    on_screen w → on_screen (exec (gesture_handler g) w)
| on_screen_click w env gs1 gs2 b :
    on_screen w →
    button (render (state w)) = Some b → disabled b = false →
    on_screen (exec (handleUpload_during env gs1 gs2) w).

(** The same, when nothing is done while a submission is in flight. *)
Inductive on_screen_calm : World → Prop :=
| calm_initial : on_screen_calm initial_world
| calm_gesture w g :
    on_screen_calm w → on_screen_calm (exec (gesture_handler g) w)
| calm_click w env b :
    on_screen_calm w →
    button (render (state w)) = Some b → disabled b = false →
    on_screen_calm (exec (handleUpload env) w).

(** A request as the orchestrator builds it for a validated file. *)
Definition well_formed_request (q : Request) : Prop :=
  ∃ f, body q = [(js "excel_file", f)] ∧
       type f ∈ accepted_media_types ∧
       responseType q = js "blob".

(** The world a submission of [f] resumes in after its last [await]: after
    [gs1], and after [gs2] too when it waited for the text of an error
    body. *)
Definition resumed (env : Env) (f : File) (gs1 gs2 : list gesture)
    (waits : nat) (w : World) : World :=
  match waits with
  | O => exec (meanwhile gs1) (begun env f w)
  | S _ =>
      exec (meanwhile gs2) (exec await_point (exec (meanwhile gs1) (begun env f w)))
  end.

(** What one gesture does to the state: it moves the dragging flag, or
    stages a file of an accepted type, or rejects the selection. *)
Inductive gesture_effect (s : State) : State → Prop :=
| effect_drag b :
    gesture_effect s
      {| file := file s; isDragging := b; isUploading := isUploading s;
         error := error s; successMessage := successMessage s |}
| effect_staged f b :
    type f ∈ accepted_media_types →
    gesture_effect s
      {| file := Some f; isDragging := b; isUploading := isUploading s;
         error := no_error; successMessage := [] |}
| effect_rejected b :
    gesture_effect s
      {| file := None; isDragging := b; isUploading := isUploading s;
         error := {| message := VString invalid_file_type; details := VUndefined |};
         successMessage := [] |}.

(** What a run of gestures keeps of the state it starts from. *)
Definition kept_by_gestures (s s' : State) : Prop :=
  isUploading s' = isUploading s ∧
  (∀ f, file s' = Some f → type f ∈ accepted_media_types ∨ file s = Some f) ∧
  (successMessage s' = [] ∨
   (successMessage s' = successMessage s ∧ error s' = error s ∧ file s' = file s)) ∧
  (error s' = error s ∨ error s' = no_error ∨
   error s' = {| message := VString invalid_file_type; details := VUndefined |}).

(** ** The [ErrorMessage] component (lines 5-19) *)

(** Whether [v] has an own property [k]. *)
Definition has_own (props : list (jsstring * value)) (k : jsstring) : bool :=
  existsb (λ p, str_eq (fst p) k) props.

(** The white space and line terminators that [ToNumber] strips from the
    ends of a string. *)
Definition is_str_ws (c : N) : bool :=
  (c =? 9) || (c =? 10) || (c =? 11) || (c =? 12) || (c =? 13) || (c =? 32)
  || (c =? 160) || (c =? 5760) || ((8192 <=? c) && (c <=? 8202))
  || (c =? 8232) || (c =? 8233) || (c =? 8239) || (c =? 8287)
  || (c =? 12288) || (c =? 65279).

Fixpoint trim_start (s : jsstring) : jsstring :=
  match s with
  | c :: s' => if is_str_ws c then trim_start s' else s
  | [] => []
  end.

Definition trim (s : jsstring) : jsstring := rev (trim_start (rev (trim_start s))).

(** A number is greater than zero. *)
Definition number_positive (n : number) : bool :=
  negb (negative n) && negb (rounds_to_zero n).

(** The digits of a literal in base 16, 8 or 2 stand for a number greater
    than zero. *)
Definition radix_positive (base : N) (ds : jsstring) : bool :=
  match ds with
  | [] => false
  | _ =>
      forallb (λ c, match hex_value c with Some d => d <? base | None => false end) ds
      && existsb (λ c, match hex_value c with Some d => 0 <? d | None => false end) ds
  end.

(** An unsigned decimal literal of a string ([Infinity], [12], [1.5], [.5],
    [5.], each with an optional exponent but for the first) stands for a
    number greater than zero. *)
Definition unsigned_decimal_positive (u : jsstring) : bool :=
  if str_eq u (js "Infinity") then true
  else
    let '(int, r1) := take_digits u in
    let '(frac, r2) :=
      match r1 with
      | c :: r => if c =? 46 then take_digits r else ([], r1)
      | [] => ([], r1)
      end in
    match int ++ frac with
    | [] => false
    | _ =>
        let exponent :=
          match r2 with
          | [] => Some 0%Z
          | c :: r =>
              if (c =? 101) || (c =? 69) then
                let '(minus, r') :=
                  match r with
                  | sg :: r' =>
                      if sg =? 45 then (true, r')
                      else if sg =? 43 then (false, r')
                      else (false, r)
                  | [] => (false, r)
                  end in
                match take_digits r' with
                | ((_ :: _) as ds, []) =>
                    Some (if minus then (- Z.of_N (decimal ds))%Z else Z.of_N (decimal ds))
                | _ => None
                end
              else None
          end in
        match exponent with
        | Some e =>
            number_positive
              (Number false (decimal (int ++ frac)) (e - Z.of_nat (length frac)))
        | None => false
        end
    end.

(** [ToNumber(s) > 0] for a string. *)
Definition string_positive (s : jsstring) : bool :=
  match trim s with
  | z :: x :: ds =>
      if (z =? 48) && ((x =? 120) || (x =? 88)) then radix_positive 16 ds
      else if (z =? 48) && ((x =? 111) || (x =? 79)) then radix_positive 8 ds
      else if (z =? 48) && ((x =? 98) || (x =? 66)) then radix_positive 2 ds
      else if z =? 45 then false
      else if z =? 43 then unsigned_decimal_positive (x :: ds)
      else unsigned_decimal_positive (z :: x :: ds)
  | t => unsigned_decimal_positive t
  end.

(** [ToString(v)] does not throw: an object built by [JSON.parse] converts
    to a primitive through [Object.prototype.toString] unless an own
    property [toString], which is not callable, hides it; an array joins
    the strings of its elements. *)
Fixpoint stringifies (v : value) : bool :=
  match v with
  | VObject props => negb (has_own props (js "toString"))
  | VArray l => forallb stringifies l
  | _ => true
  end.

(** [ToNumber(ToString(v)) > 0], when [ToString(v)] does not throw.  Only
    an array of one element joins to a string that can be a number. *)
Fixpoint string_form_positive (v : value) : bool :=
  match v with
  | VNumber n => number_positive n
  | VString s => string_positive s
  | VArray [x] => string_form_positive x
  | _ => false
  end.

(** [x > 0] *)
Definition greater_than_zero (x : value) : completion bool :=
  match x with
  | VUndefined | VNull => Normal false
  | VBool b => Normal b
  | VNumber n => Normal (number_positive n)
  | VString s => Normal (string_positive s)
  | VArray _ | VObject _ =>
      if stringifies x then Normal (string_form_positive x) else Throw TypeError
  end.

(** [v.length] *)
Definition length_of (v : value) : value :=
  match v with
  | VString s => VNumber (Number false (N.of_nat (length s)) 0)
  | VArray l => VNumber (Number false (N.of_nat (length l)) 0)
  | VObject props => own_property props (js "length")
  | _ => VUndefined
  end.

(** The child [details && details.length > 0 && <ul>...</ul>]: the list
    items, one per detail and in order, or the value the [&&] chain stops
    at. *)
Inductive DetailsSlot :=
| DetailsList (items : list value)
| DetailsChild (child : value).

(** What [ErrorMessage] returns: the child of its [<p>], and the details
    slot. *)
Record Panel := { panel_message : value; panel_details : DetailsSlot }.

(** [ErrorMessage({ message, details = [] })].  [details.map] is a function
    on arrays only; calling it on anything else is a [TypeError]. *)
Definition ErrorMessage (message details : value) : completion Panel :=
  let details := match details with VUndefined => VArray [] | d => d end in
  if ToBoolean details then
    match greater_than_zero (length_of details) with
    | Throw e => Throw e
    | Normal false =>
        Normal {| panel_message := message; panel_details := DetailsChild (VBool false) |}
    | Normal true =>
        match details with
        | VArray l =>
            Normal {| panel_message := message; panel_details := DetailsList l |}
        | _ => Throw TypeError
        end
    end
  else Normal {| panel_message := message; panel_details := DetailsChild details |}.

(** What React accepts as a child: text, numbers, booleans, [null],
    [undefined], and arrays of children; a plain object is refused with an
    error. *)
Fixpoint valid_child (v : value) : bool :=
  match v with
  | VObject _ => false
  | VArray l => forallb valid_child l
  | _ => true
  end.

(** What is on display: the tree [FileUpload] returns and, where it asks
    for it, the panel [ErrorMessage] returns. *)
Record Display := { tree : View; panel : option Panel }.

(** Rendering the state.  [None]: [ErrorMessage] throws, or a child is
    refused, and React, with no error boundary around the component,
    removes the whole tree from the screen. *)
Definition displayed (s : State) : option Display :=
  match error_slot (render s) with
  | ErrorBlank _ => Some {| tree := render s; panel := None |}
  | ErrorPanel m d =>
      match ErrorMessage m d with
      | Normal p =>
          if valid_child (panel_message p)
             && match panel_details p with
                | DetailsList items => forallb valid_child items
                | DetailsChild _ => true
                end
          then Some {| tree := render s; panel := Some p |}
          else None
      | Throw _ => None
      end
  end.

(** ** Selections *)

(** The file a gesture hands to [validateAndSetFile], if it hands one:
    every change of the file input does, with [files[0]]; a drop does when
    it carries a file. *)
Definition selection (g : gesture) : option (option File) :=
  match g with
  | Pick files => Some (head files)
  | DropOn (Some (f :: _)) => Some (Some f)
  | _ => None
  end.

(** A selection the validator rejects: no file, or a file whose type is not
    accepted. *)
Definition rejected_selection (g : gesture) : Prop :=
  ∃ selectedFile,
    selection g = Some selectedFile ∧
    ∀ f, selectedFile = Some f → type f ∉ accepted_media_types.

(** An error as the error response contract has it: a message that is a
    string, and details that are a list of strings. *)
Definition text_error (m : jsstring) (ds : list jsstring) : Error :=
  {| message := VString m; details := VArray (map VString ds) |}.

(** The panel for such an error: the message, and the list of details when
    there is one. *)
Definition text_panel (m : jsstring) (ds : list jsstring) : Panel :=
  {| panel_message := VString m;
     panel_details :=
       match ds with
       | [] => DetailsChild (VBool false)
       | _ => DetailsList (map VString ds)
       end |}.

(** The body [{ details: x }] in JSON, its details a string. *)
Definition string_details_body : jsstring :=
  js "{" ++ [dquote] ++ js "details" ++ [dquote] ++ js ":"
  ++ [dquote] ++ js "x" ++ [dquote] ++ js "}".

(** Unfolds a submission with gestures in between in the same way. *)
Ltac unfold_interleaved :=
  unfold handleUpload_during, clearMessages, setError, setFile,
    setIsUploading, setSuccessMessage, modify, try_finally, try_catch,
    await_point, click_download_link, JSON_parse_stmt,
    Get, throw, mbind, mret, M_bind, M_ret;
  cbv beta.


(** A second sheet, for what is picked while another is being sent. *)
Definition rates_xls : File :=
  {| name := js "rates.xls"; type := js "application/vnd.ms-excel";
     content := [208; 207; 17; 224] |}.

(** Unfolds a handler down to matches on what it reads. *)
Ltac unfold_handler :=
  unfold handleUpload, validateAndSetFile, clearMessages, setError, setFile,
    setIsUploading, setSuccessMessage, modify, try_finally, try_catch,
    axios_post, await_point, click_download_link, Blob_text, JSON_parse_stmt,
    Get, throw, mbind, mret, M_bind, M_ret;
  cbv beta.

(** * Properties *)

(** ** The parser and its fuel *)

Lemma skip_ws_length (s : jsstring) : (length (skip_ws s) ≤ length s)%nat.
Proof.
  induction s as [|c s IH]; cbn; [lia|].
  destruct (is_ws c); cbn; lia.
Qed.

Lemma skip_ws_cons_length (s r : jsstring) (c : N) :
  skip_ws s = c :: r → (length r < length s)%nat.
Proof.
  intros H. pose proof (skip_ws_length s) as Hl. rewrite H in Hl. cbn in Hl. lia.
Qed.

Lemma take_digits_length (s r : jsstring) (ds : list N) :
  take_digits s = (ds, r) → (length r ≤ length s)%nat.
Proof.
  revert ds r. induction s as [|c s IH]; intros ds r; cbn.
  - intros [= <- <-]. cbn. lia.
  - destruct (is_digit c).
    + destruct (take_digits s) as [ds' r'] eqn:Ht. intros [= <- <-].
      specialize (IH ds' r' eq_refl). lia.
    + intros [= <- <-]. cbn. lia.
Qed.

Lemma strip_prefix_length (p s r : jsstring) :
  strip_prefix p s = Some r → (length r ≤ length s)%nat.
Proof.
  revert s. induction p as [|a p IH]; intros s; cbn.
  - intros [= <-]. lia.
  - destruct s as [|b s]; [discriminate|]. destruct (a =? b); [|discriminate].
    intros H%IH. cbn. lia.
Qed.

Lemma parse_string_body_length (s str r : jsstring) :
  parse_string_body s = Some (str, r) → (length r ≤ length s)%nat.
Proof.
  remember (length s) as n eqn:Hn. revert s str r Hn.
  induction n as [n IH] using lt_wf_ind. intros s str r -> H.
  destruct s as [|c rest]; [discriminate|]. cbn [parse_string_body] in H.
  cbn [length].
  repeat (case_match; simplify_option_eq; try discriminate); try lia;
    match goal with
    | Hrec : parse_string_body ?s' = Some (_, ?r') |- _ =>
        apply (IH (length s')) in Hrec; cbn [length] in *; [lia | lia | reflexivity]
    end.
Qed.

Lemma parse_number_length (s r : jsstring) (n : number) :
  parse_number s = Some (n, r) → (length r ≤ length s)%nat.
Proof.
  unfold parse_number. intros H.
  repeat (case_match; simplify_option_eq; try discriminate);
    repeat match goal with
    | Ht : take_digits _ = _ |- _ => apply take_digits_length in Ht
    end;
    cbn [length] in *; lia.
Qed.

Lemma parse_fuel (n : nat) :
  (∀ s v r, parse_value n s = Some (v, r) →
     (length r ≤ length s)%nat ∧
     ∀ m, (2 * (length s - length r) + 1 ≤ m)%nat → parse_value m s = Some (v, r)) ∧
  (∀ s vs r, parse_elements n s = Some (vs, r) →
     (length r < length s)%nat ∧
     ∀ m, (2 * (length s - length r) ≤ m)%nat → parse_elements m s = Some (vs, r)) ∧
  (∀ s ms r, parse_members n s = Some (ms, r) →
     (length r < length s)%nat ∧
     ∀ m, (2 * (length s - length r) ≤ m)%nat → parse_members m s = Some (ms, r)).
Proof.
  induction n as [|n (IHv & IHe & IHm)]; [by repeat split|].
  split; [|split].
  - intros s v r H. cbn [parse_value] in H.
    destruct (skip_ws s) as [|c rest] eqn:Hws; [discriminate|].
    pose proof (skip_ws_cons_length _ _ _ Hws) as Hrest.
    assert (Hm : ∀ m P, (2 * (length s - length r) + 1 ≤ m)%nat →
                 (∀ m', m = S m' → P) → P).
    { intros [|m'] P Hle HP; [lia|]. by apply (HP m'). }
    destruct (c =? 123) eqn:Hobj.
    { destruct (skip_ws rest) as [|c' rest'] eqn:Hws'; [discriminate|].
      pose proof (skip_ws_cons_length _ _ _ Hws') as Hrest'.
      destruct (c' =? 125) eqn:Hclose.
      - injection H as <- <-. split; [lia|]. intros m Hle.
        apply (Hm m _ Hle). intros m' ->. cbn [parse_value].
        by rewrite Hws, Hobj, Hws', Hclose.
      - destruct (parse_members n rest) as [[ms r']|] eqn:Hrec; [|discriminate].
        cbn in H. injection H as <- <-.
        apply IHm in Hrec as [Hlen Hrec]. split; [lia|]. intros m Hle.
        apply (Hm m _ Hle). intros m' ->. cbn [parse_value].
        rewrite Hws, Hobj, Hws', Hclose, Hrec; [done | lia]. }
    destruct (c =? 91) eqn:Harr.
    { destruct (skip_ws rest) as [|c' rest'] eqn:Hws'; [discriminate|].
      pose proof (skip_ws_cons_length _ _ _ Hws') as Hrest'.
      destruct (c' =? 93) eqn:Hclose.
      - injection H as <- <-. split; [lia|]. intros m Hle.
        apply (Hm m _ Hle). intros m' ->. cbn [parse_value].
        by rewrite Hws, Hobj, Harr, Hws', Hclose.
      - destruct (parse_elements n rest) as [[vs r']|] eqn:Hrec; [|discriminate].
        cbn in H. injection H as <- <-.
        apply IHe in Hrec as [Hlen Hrec]. split; [lia|]. intros m Hle.
        apply (Hm m _ Hle). intros m' ->. cbn [parse_value].
        rewrite Hws, Hobj, Harr, Hws', Hclose, Hrec; [done | lia]. }
    assert (Hlen : (length r ≤ length rest + 1)%nat).
    { repeat (case_match; simplify_option_eq; try discriminate);
        repeat match goal with
        | Hp : parse_string_body _ = Some _ |- _ => apply parse_string_body_length in Hp
        | Hp : strip_prefix _ _ = Some _ |- _ => apply strip_prefix_length in Hp
        | Hp : parse_number _ = Some _ |- _ => apply parse_number_length in Hp
        end; cbn [length] in *; lia. }
    split; [lia|]. intros m Hle.
    apply (Hm m _ Hle). intros m' ->. cbn [parse_value].
    by rewrite Hws, Hobj, Harr.
  - intros s vs r H. cbn [parse_elements] in H.
    destruct (parse_value n s) as [[v r1]|] eqn:Hv; [|discriminate].
    cbn in H. apply IHv in Hv as [Hlen1 Hv].
    destruct (skip_ws r1) as [|c r'] eqn:Hws; [discriminate|].
    pose proof (skip_ws_cons_length _ _ _ Hws) as Hr'.
    destruct (c =? 44) eqn:Hcomma.
    + destruct (parse_elements n r') as [[vs' r'']|] eqn:Hrec; [|discriminate].
      cbn in H. injection H as <- <-.
      apply IHe in Hrec as [Hlen Hrec]. split; [lia|].
      intros [|m] Hle; [lia|]. cbn [parse_elements].
      rewrite Hv; [|lia]. cbn. rewrite Hws, Hcomma, Hrec; [done | lia].
    + destruct (c =? 93) eqn:Hclose; [|discriminate].
      injection H as <- <-. split; [lia|].
      intros [|m] Hle; [lia|]. cbn [parse_elements].
      rewrite Hv; [|lia]. cbn. by rewrite Hws, Hcomma, Hclose.
  - intros s ms r H. cbn [parse_members] in H.
    destruct (skip_ws s) as [|q r0] eqn:Hws0; [discriminate|].
    pose proof (skip_ws_cons_length _ _ _ Hws0) as Hr0.
    destruct (q =? 34) eqn:Hq; [|discriminate].
    destruct (parse_string_body r0) as [[k r1]|] eqn:Hk; [|discriminate].
    cbn in H. pose proof (parse_string_body_length _ _ _ Hk) as Hr1.
    destruct (skip_ws r1) as [|colon r2] eqn:Hws1; [discriminate|].
    pose proof (skip_ws_cons_length _ _ _ Hws1) as Hr2.
    destruct (colon =? 58) eqn:Hcolon; [|discriminate].
    destruct (parse_value n r2) as [[v r3]|] eqn:Hv; [|discriminate].
    cbn in H. apply IHv in Hv as [Hr3 Hv].
    destruct (skip_ws r3) as [|c r4] eqn:Hws3; [discriminate|].
    pose proof (skip_ws_cons_length _ _ _ Hws3) as Hr4.
    destruct (c =? 44) eqn:Hcomma.
    + destruct (parse_members n r4) as [[ms' r5]|] eqn:Hrec; [|discriminate].
      cbn in H. injection H as <- <-.
      apply IHm in Hrec as [Hr5 Hrec]. split; [lia|].
      intros [|m] Hle; [lia|]. cbn [parse_members].
      rewrite Hws0, Hq, Hk. cbn. rewrite Hws1, Hcolon, Hv; [|lia]. cbn.
      rewrite Hws3, Hcomma, Hrec; [done | lia].
    + destruct (c =? 125) eqn:Hclose; [|discriminate].
      injection H as <- <-. split; [lia|].
      intros [|m] Hle; [lia|]. cbn [parse_members].
      rewrite Hws0, Hq, Hk. cbn. rewrite Hws1, Hcolon, Hv; [|lia]. cbn.
      by rewrite Hws3, Hcomma, Hclose.
Qed.

(** X3. The levels [JSON_parse] allows are enough: a text that parses with
    any number of levels parses with them, to the same value. *)
Theorem JSON_parse_fuel_enough (n : nat) (text r : jsstring) (v : value) :
  parse_value n text = Some (v, r) →
  skip_ws r = [] →
  JSON_parse text = Some v.
Proof.
  intros Hp Hr. unfold JSON_parse.
  destruct (proj1 (parse_fuel n) text v r Hp) as [Hlen Hm].
  rewrite Hm; [|lia]. cbn. by rewrite Hr.
Qed.


Lemma JSON_parse_fuel_enough_witness :
  JSON_parse (js "[1, [2]]")
    = Some (VArray [VNumber (Number false 1 0);
                    VArray [VNumber (Number false 2 0)]]).
Proof.
  apply (JSON_parse_fuel_enough 7 (js "[1, [2]]") []); vm_compute; reflexivity.
Defined.

(** [JSON.parse] never yields [undefined]. *)
Lemma parse_value_defined (fuel : nat) (s r : jsstring) :
  parse_value fuel s ≠ Some (VUndefined, r).
Proof.
  destruct fuel as [|fuel]; [discriminate|].
  cbn [parse_value]. intros H.
  repeat (case_match; try discriminate; simplify_option_eq).
Qed.

Lemma JSON_parse_defined (text : jsstring) : JSON_parse text ≠ Some VUndefined.
Proof.
  unfold JSON_parse. intros H.
  destruct (parse_value _ text) as [[v r]|] eqn:Hp; [|discriminate].
  cbn in H. destruct (skip_ws r); [|discriminate].
  injection H as ->. by apply parse_value_defined in Hp.
Qed.

(** ** What the filename pattern matches *)

Lemma took_is_Some (c : N) (r : option match_result) :
  is_Some (took c r) ↔ is_Some r.
Proof. destruct r as [[whole caps]|]; cbn; by rewrite <- ?not_eq_None_Some. Qed.

Lemma re_match_literal (k : jsstring) (rest : list term) (s : jsstring) :
  is_Some (re_match (map (λ c, One (Lit c)) k ++ rest) s) ↔
  ∃ key s', s = key ++ s' ∧
            map canonicalize key = map canonicalize k ∧
            is_Some (re_match rest s').
Proof.
  revert s. induction k as [|a k IH]; intros s.
  - split.
    + intros H. by exists [], s.
    + intros (key & s' & -> & Hkey & H). by destruct key.
  - cbn [map app re_match]. destruct s as [|c s].
    + split; [by intros [? ?]|]. intros (key & s' & Hs & Hkey & _).
      destruct key; discriminate.
    + unfold charset_matches. destruct (N.eqb_spec (canonicalize a) (canonicalize c)) as [Hc|Hc].
      * rewrite took_is_Some, IH. split.
        -- intros (key & s' & -> & Hkey & H). exists (c :: key), s'. cbn.
           by rewrite Hkey, Hc.
        -- intros (key & s' & Hs & Hkey & H). destruct key as [|c' key]; [discriminate|].
           cbn in Hs, Hkey. injection Hs as <- ->. injection Hkey as _ Hkey.
           by exists key, s'.
      * split; [by intros [? ?]|]. intros (key & s' & Hs & Hkey & _).
        destruct key as [|c' key]; [discriminate|].
        cbn in Hs, Hkey. injection Hs as <- ->. injection Hkey as Hc' _.
        congruence.
Qed.

Lemma opt_is_Some (cs : charset) (s : jsstring) : is_Some (re_match [Opt cs] s).
Proof.
  cbn. destruct s as [|c s]; [by eexists|].
  destruct (charset_matches cs c); by eexists.
Qed.

Lemma plus_loop_is_Some (cs : charset) (rest : jsstring → option match_result)
    (s : jsstring) :
  (∀ s', is_Some (rest s')) →
  is_Some (plus_loop cs rest s) ↔
  ∃ c s', s = c :: s' ∧ charset_matches cs c = true.
Proof.
  intros Hrest. destruct s as [|c s]; cbn [plus_loop].
  - split; [by intros [? ?]|]. by intros (? & ? & ? & _).
  - destruct (charset_matches cs c) eqn:Hc.
    + split; [by exists c, s|]. intros _.
      destruct (plus_loop cs rest s) as [[g [whole caps]]|]; [by eexists|].
      destruct (Hrest s) as [[whole caps] ->]. by eexists.
    + split; [by intros [? ?]|]. intros (c' & s' & [= <- <-] & Hc'). congruence.
Qed.

Lemma group_plus_is_Some (cs q : charset) (s : jsstring) :
  is_Some (re_match [GroupPlus cs; Opt q] s) ↔
  ∃ c s', s = c :: s' ∧ charset_matches cs c = true.
Proof.
  rewrite <- (plus_loop_is_Some cs (re_match [Opt q]) s (opt_is_Some q)).
  change (re_match [GroupPlus cs; Opt q] s) with
    (match plus_loop cs (re_match [Opt q]) s with
     | Some (g, (whole, caps)) => Some (whole, g :: caps)
     | None => None
     end).
  destruct (plus_loop cs (re_match [Opt q]) s) as [[g [whole caps]]|].
  - split; by eexists.
  - split; by intros [? ?].
Qed.

Lemma filename_tail_is_Some (s : jsstring) :
  is_Some (re_match [Opt (Lit dquote); GroupPlus Dot; Opt (Lit dquote)] s) ↔
  ∃ c s', s = c :: s' ∧ is_line_terminator c = false.
Proof.
  assert (Hdot : ∀ c, charset_matches Dot c = true ↔ is_line_terminator c = false).
  { intros c. cbn. by destruct (is_line_terminator c). }
  change (re_match [Opt (Lit dquote); GroupPlus Dot; Opt (Lit dquote)] s) with
    (match
       match s with
       | c :: s' =>
           if charset_matches (Lit dquote) c
           then took c (re_match [GroupPlus Dot; Opt (Lit dquote)] s')
           else None
       | [] => None
       end
     with
     | Some r => Some r
     | None => re_match [GroupPlus Dot; Opt (Lit dquote)] s
     end).
  split.
  - intros H. destruct s as [|c s]; [by destruct H|].
    exists c, s. split; [done|].
    destruct (is_line_terminator c) eqn:Hlt; [|done].
    exfalso.
    assert (Hq : charset_matches (Lit dquote) c = false).
    { cbn. unfold is_line_terminator in Hlt.
      rewrite !orb_true_iff, !N.eqb_eq in Hlt.
      destruct Hlt as [[[-> | ->] | ->] | ->]; reflexivity. }
    rewrite Hq in H. apply group_plus_is_Some in H as (c' & s' & [= <- <-] & Hc').
    apply Hdot in Hc'. congruence.
  - intros (c & s' & -> & Hlt).
    assert (Hplus : is_Some (re_match [GroupPlus Dot; Opt (Lit dquote)] (c :: s'))).
    { apply group_plus_is_Some. exists c, s'. by rewrite Hdot. }
    destruct (charset_matches (Lit dquote) c); [|done].
    destruct (took c _); [by eexists | done].
Qed.

Lemma re_exec_is_Some (p : list term) (s : jsstring) :
  is_Some (re_exec p s) ↔
  ∃ pre suf, s = pre ++ suf ∧ is_Some (re_match p suf).
Proof.
  induction s as [|c s IH]; cbn [re_exec].
  - destruct (re_match p []) eqn:Hm.
    + split; [|by eexists]. intros _. exists [], []. by rewrite Hm.
    + split; [by intros [? ?]|]. intros (pre & suf & Hs & Hsome).
      symmetry in Hs. apply app_eq_nil in Hs as [-> ->]. by rewrite Hm in Hsome.
  - destruct (re_match p (c :: s)) eqn:Hm.
    + split; [|by eexists]. intros _. exists [], (c :: s). by rewrite Hm.
    + rewrite IH. split.
      * intros (pre & suf & -> & Hsome). by exists (c :: pre), suf.
      * intros (pre & suf & Hs & Hsome). destruct pre as [|c' pre].
        -- cbn in Hs. subst suf. rewrite Hm in Hsome. by destruct Hsome.
        -- injection Hs as <- ->. by exists pre, suf.
Qed.

(** X1. The pattern fails to match a header exactly when the header has no
    filename parameter. *)
Theorem filename_re_matches_parameter (cd : jsstring) :
  String_match cd filename_re = None ↔ ¬ has_filename_parameter cd.
Proof.
  unfold String_match, has_filename_parameter.
  assert (Hiff : is_Some (re_exec filename_re cd) ↔
    ∃ pre key c post, cd = pre ++ key ++ c :: post ∧
      map canonicalize key = map canonicalize (js "filename=") ∧
      is_line_terminator c = false).
  { rewrite re_exec_is_Some. unfold filename_re. split.
    - intros (pre & suf & -> & (key & s' & -> & Hkey & Htail)%re_match_literal).
      apply filename_tail_is_Some in Htail as (c & post & -> & Hlt).
      by exists pre, key, c, post.
    - intros (pre & key & c & post & -> & Hkey & Hlt).
      exists pre, (key ++ c :: post). split; [done|].
      apply re_match_literal. exists key, (c :: post). repeat split; [done|].
      apply filename_tail_is_Some. by exists c, post. }
  rewrite <- Hiff. destruct (re_exec filename_re cd) as [[whole caps]|].
  - split; [discriminate|]. intros H. destruct H. by eexists.
  - split; [|done]. intros _ [? ?]. discriminate.
Qed.

Lemma resolve_fileName_no_match (contentDisposition : option jsstring) :
  (contentDisposition = None ∨
   ∃ cd, contentDisposition = Some cd ∧ String_match cd filename_re = None) →
  resolve_fileName contentDisposition = default_fileName.
Proof.
  intros [-> | (cd & -> & Hno)]; [reflexivity|].
  unfold resolve_fileName. destruct cd as [|c cd]; [reflexivity|].
  rewrite Hno. reflexivity.
Qed.

(** ** The validator *)

Lemma str_eq_true s t : str_eq s t = true ↔ s = t.
Proof. unfold str_eq. apply bool_decide_eq_true. Qed.

(** The test of line 37 is membership in the accepted set. *)
Lemma accepted_test (f : File) :
  str_eq (type f)
    (js "application/vnd.openxmlformats-officedocument.spreadsheetml.sheet")
  || str_eq (type f) (js "application/vnd.ms-excel")
  || str_eq (type f) (js "text/csv") = true
  ↔ type f ∈ accepted_media_types.
Proof.
  unfold accepted_media_types.
  rewrite !orb_true_iff, !str_eq_true, !elem_of_cons, elem_of_nil.
  tauto.
Qed.

Lemma validate_accepted (w : World) (f : File) :
  type f ∈ accepted_media_types →
  validateAndSetFile (Some f) w =
    (Normal (),
     with_state w
       {| file := Some f; isDragging := isDragging (state w);
          isUploading := isUploading (state w);
          error := no_error; successMessage := [] |}).
Proof.
  intros Hin%accepted_test.
  unfold validateAndSetFile. rewrite Hin. reflexivity.
Qed.

Lemma validate_rejected (w : World) (selectedFile : option File) :
  (∀ f, selectedFile = Some f → type f ∉ accepted_media_types) →
  validateAndSetFile selectedFile w =
    (Normal (),
     with_state w
       {| file := None; isDragging := isDragging (state w);
          isUploading := isUploading (state w);
          error := {| message := VString invalid_file_type; details := VUndefined |};
          successMessage := [] |}).
Proof.
  intros Hout.
  unfold validateAndSetFile.
  destruct selectedFile as [f|]; [|reflexivity].
  destruct (_ || _ || _) eqn:Htest; [|reflexivity].
  apply accepted_test in Htest. destruct (Hout f eq_refl Htest).
Qed.

Lemma validate_file_or_none (w : World) (selectedFile : option File) :
  successMessage (state (exec (validateAndSetFile selectedFile) w)) = [] ∧
  isUploading (state (exec (validateAndSetFile selectedFile) w)) = isUploading (state w).
Proof.
  unfold exec.
  destruct selectedFile as [f|].
  - destruct (decide (type f ∈ accepted_media_types)) as [Hin|Hout].
    + by rewrite (validate_accepted w f Hin).
    + rewrite (validate_rejected w (Some f)); [done|]. by intros ? [= <-].
  - by rewrite (validate_rejected w None).
Qed.

(** C3. A missing file, or a file whose declared media type is not one of
    the accepted ones, is rejected: the error message is the fixed text, no
    detail is shown, the success message is cleared and the Candidate File
    is emptied; nothing is sent. *)
Theorem validate_rejects_other_types (w : World) (selectedFile : option File) :
  (∀ f, selectedFile = Some f → type f ∉ accepted_media_types) →
  outcome (validateAndSetFile selectedFile) w = Normal () ∧
  message (error (state (exec (validateAndSetFile selectedFile) w)))
    = VString (js "Invalid file type. Please upload an Excel (.xlsx, .xls) or CSV (.csv) file.") ∧
  ErrorMessage_details (error (state (exec (validateAndSetFile selectedFile) w)))
    = VArray [] ∧
  file (state (exec (validateAndSetFile selectedFile) w)) = None ∧
  successMessage (state (exec (validateAndSetFile selectedFile) w)) = [] ∧
  requests (exec (validateAndSetFile selectedFile) w) = requests w.
Proof.
  intros Hout. unfold outcome, exec.
  rewrite (validate_rejected w selectedFile Hout). by repeat split.
Qed.

Lemma validate_rejects_other_types_witness :
  message (error (state (exec (validateAndSetFile (Some notes_pdf)) staged_world)))
    = VString invalid_file_type ∧
  file (state (exec (validateAndSetFile (Some notes_pdf)) staged_world)) = None ∧
  message (error (state (exec (validateAndSetFile None) staged_world)))
    = VString invalid_file_type.
Proof.
  split; [|split].
  - apply (validate_rejects_other_types staged_world (Some notes_pdf)).
    intros f [= <-]. apply (bool_decide_unpack _). vm_compute. reflexivity.
  - apply (validate_rejects_other_types staged_world (Some notes_pdf)).
    intros f [= <-]. apply (bool_decide_unpack _). vm_compute. reflexivity.
  - apply (validate_rejects_other_types staged_world None).
    intros f Hf. discriminate Hf.
Defined.

(** C9. A file whose declared media type is one of the three accepted ones
    is accepted: error and success signals are cleared and the file becomes
    the Candidate File, whatever was staged before; and a file that becomes
    the Candidate File has one of the three types. *)
Theorem validate_accepts_listed_types (w : World) (f : File) :
  (type f ∈ accepted_media_types →
   outcome (validateAndSetFile (Some f)) w = Normal () ∧
   file (state (exec (validateAndSetFile (Some f)) w)) = Some f ∧
   error (state (exec (validateAndSetFile (Some f)) w)) = no_error ∧
   successMessage (state (exec (validateAndSetFile (Some f)) w)) = []) ∧
  (file (state (exec (validateAndSetFile (Some f)) w)) = Some f →
   type f ∈ accepted_media_types).
Proof.
  split.
  - intros Hin. unfold outcome, exec. rewrite (validate_accepted w f Hin).
    by repeat split.
  - intros Hfile. destruct (decide (type f ∈ accepted_media_types)) as [|Hout]; [done|].
    unfold exec in Hfile.
    rewrite (validate_rejected w (Some f)) in Hfile; [discriminate Hfile|].
    by intros ? [= <-].
Qed.

Lemma validate_accepts_listed_types_witness :
  file (state (exec (validateAndSetFile (Some sheet_csv))
                 (exec (validateAndSetFile (Some notes_pdf)) staged_world)))
    = Some sheet_csv ∧
  error (state (exec (validateAndSetFile (Some sheet_csv))
                  (exec (validateAndSetFile (Some notes_pdf)) staged_world)))
    = no_error.
Proof.
  pose proof (proj1 (validate_accepts_listed_types
    (exec (validateAndSetFile (Some notes_pdf)) staged_world) sheet_csv)) as H.
  split; apply H; apply (bool_decide_unpack _); vm_compute; reflexivity.
Defined.

(** ** The orchestrator, path by path *)

Lemma handleUpload_no_file (env : Env) (w : World) :
  file (state w) = None →
  handleUpload env w =
    (Normal (),
     with_state w
       {| file := None; isDragging := isDragging (state w);
          isUploading := isUploading (state w);
          error := {| message := VString please_select; details := VUndefined |};
          successMessage := successMessage (state w) |}).
Proof.
  intros Hf. unfold_handler. rewrite Hf. cbn. rewrite Hf. reflexivity.
Qed.

Lemma handleUpload_succeeds (env : Env) (w : World) (f : File) (r : Response) :
  file (state w) = Some f →
  succeeds env r →
  handleUpload env w =
    (Normal (),
     {| state :=
          {| file := None; isDragging := isDragging (state w);
             isUploading := false; error := no_error;
             successMessage := download_started |};
        requests := requests w ++ [upload_request env f];
        downloads := downloads w ++
          [{| download := resolve_fileName (headers r !! js "content-disposition");
              payload := data r;
              content_type := headers r !! js "content-type" |}];
        suspended := suspended w ++ [in_flight (state w)] |}).
Proof.
  intros Hf (Hx & H2 & Hd). unfold is_2xx in H2.
  unfold_handler. rewrite Hf, Hx, H2, Hd. reflexivity.
Qed.

Lemma handleUpload_fails (env : Env) (w : World) (f : File) (e : Error) (n : nat) :
  file (state w) = Some f →
  fails env e n →
  handleUpload env w =
    (Normal (),
     {| state :=
          {| file := file (state w); isDragging := isDragging (state w);
             isUploading := false; error := e; successMessage := [] |};
        requests := requests w ++ [upload_request env f];
        downloads := downloads w;
        suspended := suspended w ++ replicate (S n) (in_flight (state w)) |}).
Proof.
  intros Hf Hfails.
  destruct Hfails as
    [Hx | r Hx H2 Hd | r Hx H2 Hd | r Hx H2 Hd | r t Hx H2 Hd Hp
    | r t v Hx H2 Hd Hp Hv | r t v Hx H2 Hd Hp Hnull Hundef];
    destruct w as [[fl dr up er sm] rq dl su]; cbn in Hf; subst fl;
    unfold is_2xx in *; unfold_handler; cbn [state file]; rewrite Hx; try rewrite H2; try rewrite Hd.
  - reflexivity.
  - reflexivity.
  - destruct r; cbn in Hd; subst. reflexivity.
  - destruct r; cbn in Hd; subst. cbn -[JSON_parse js]. rewrite <- app_assoc. reflexivity.
  - destruct r; cbn in Hd; subst. cbn -[JSON_parse js]. rewrite Hp, <- app_assoc. reflexivity.
  - destruct r; cbn in Hd; subst. cbn -[JSON_parse js]. rewrite Hp, <- app_assoc.
    destruct Hv; subst; reflexivity.
  - destruct r; cbn in Hd; subst. cbn -[JSON_parse js]. rewrite Hp, <- app_assoc.
    destruct v; try congruence; reflexivity.
Qed.

(** Every submission of a staged file takes one of the two ways. *)
Lemma succeeds_or_fails (env : Env) :
  (∃ r, succeeds env r) ∨ (∃ e n, fails env e n).
Proof.
  destruct (exchange env) as [|r] eqn:Hx.
  { right. exists generic_error, 0%nat. by constructor. }
  destruct (is_2xx r) eqn:H2.
  { destruct (download_throws env) eqn:Hd.
    - right. exists generic_error, 0%nat. by eapply fails_download.
    - left. by exists r. }
  right. destruct (data r) as [[t|]|] eqn:Hd.
  - destruct (JSON_parse t) as [v|] eqn:Hp.
    + destruct v eqn:Hv;
        try (exists generic_error, 1%nat; eapply fails_nullish; eauto; fail);
        eexists (decoded_error _), 1%nat; eapply fails_structured; eauto;
        discriminate.
    + exists generic_error, 1%nat. by eapply fails_not_json.
  - exists generic_error, 1%nat. by eapply fails_unreadable.
  - exists generic_error, 0%nat. by eapply fails_other_data.
Qed.

(** The two ways exclude each other. *)
Lemma fails_not_succeeds (env : Env) (e : Error) (n : nat) (r : Response) :
  fails env e n → ¬ succeeds env r.
Proof.
  intros Hfails (Hx & H2 & Hd).
  destruct Hfails; congruence.
Qed.

Lemma unstructured_fails (env : Env) :
  unstructured env → ∃ n, fails env generic_error n.
Proof.
  intros [Hx | r Hx H2 Hd | r Hx H2 Hd | r Hx H2 Hd | r t Hx H2 Hd Hp].
  - exists 0%nat. by constructor.
  - exists 0%nat. by eapply fails_download.
  - exists 0%nat. by eapply fails_other_data.
  - exists 1%nat. by eapply fails_unreadable.
  - exists 1%nat. by eapply fails_not_json.
Qed.

(** ** The busy flag and the error signal *)

(** C5. Submitting with no Candidate File sets the error message to the
    fixed text and returns at once: the handler completes normally, issues
    no request, never waits, and leaves the busy flag as it was. *)
Theorem submit_without_file_only_reports (env : Env) (w : World) :
  file (state w) = None →
  outcome (handleUpload env) w = Normal () ∧
  message (error (state (exec (handleUpload env) w)))
    = VString (js "Please select a file first.") ∧
  requests (exec (handleUpload env) w) = requests w ∧
  suspended (exec (handleUpload env) w) = suspended w ∧
  isUploading (state (exec (handleUpload env) w)) = isUploading (state w).
Proof.
  intros Hf. unfold outcome, exec. rewrite (handleUpload_no_file env w Hf).
  by repeat split.
Qed.

Lemma submit_without_file_only_reports_witness :
  message (error (state (exec (handleUpload (answering (ok_response None))) initial_world)))
    = VString please_select ∧
  requests (exec (handleUpload (answering (ok_response None))) initial_world) = [].
Proof.
  pose proof (submit_without_file_only_reports
    (answering (ok_response None)) initial_world eq_refl) as H.
  split; apply H.
Defined.

(** C4. A submission of a staged file completes normally on every path and
    ends with the busy flag off; it issues one request, and every state the
    user can observe while it waits shows the busy flag on. *)
Theorem busy_only_while_in_flight (env : Env) (w : World) (f : File) :
  file (state w) = Some f →
  outcome (handleUpload env) w = Normal () ∧
  isUploading (state (exec (handleUpload env) w)) = false ∧
  requests (exec (handleUpload env) w) = requests w ++ [upload_request env f] ∧
  ∃ seen,
    suspended (exec (handleUpload env) w) = suspended w ++ seen ∧
    seen ≠ [] ∧
    Forall (λ s, isUploading s = true) seen.
Proof.
  intros Hf. unfold outcome, exec.
  destruct (succeeds_or_fails env) as [[r Hok] | (e & n & Hfails)].
  - rewrite (handleUpload_succeeds env w f r Hf Hok). repeat split.
    exists [in_flight (state w)]. repeat split; [discriminate|].
    by constructor.
  - rewrite (handleUpload_fails env w f e n Hf Hfails). repeat split.
    exists (replicate (S n) (in_flight (state w))). repeat split; [discriminate|].
    by apply Forall_replicate.
Qed.

Lemma busy_only_while_in_flight_witness :
  isUploading (state (exec (handleUpload (answering (error_response 500 (js "oops")))) staged_world))
    = false ∧
  isUploading (state (exec (handleUpload (answering (ok_response None))) staged_world))
    = false.
Proof.
  split.
  - apply (busy_only_while_in_flight (answering (error_response 500 (js "oops")))
             staged_world sheet_csv eq_refl).
  - apply (busy_only_while_in_flight (answering (ok_response None))
             staged_world sheet_csv eq_refl).
Defined.

(** C7. When a submission fails and the error carries no blob body, or a
    blob that does not parse as JSON, the error signal is exactly the
    generic message with an empty detail list, and the handler completes
    normally: nothing is thrown out of it. *)
Theorem unstructured_failure_is_generic (env : Env) (w : World) (f : File) :
  file (state w) = Some f →
  unstructured env →
  outcome (handleUpload env) w = Normal () ∧
  error (state (exec (handleUpload env) w))
    = {| message := VString (js "An unexpected error occurred.");
         details := VArray [] |}.
Proof.
  intros Hf [n Hfails]%unstructured_fails. unfold outcome, exec.
  rewrite (handleUpload_fails env w f _ n Hf Hfails). by split.
Qed.

Lemma unstructured_failure_is_generic_witness :
  error (state (exec (handleUpload
           (answering (error_response 500 (js "<h1>Internal Server Error</h1>"))))
           staged_world)) = generic_error ∧
  error (state (exec (handleUpload
           {| VITE_API_BASE_URL := None; exchange := NetworkFailure;
              download_throws := false |})
           staged_world)) = generic_error.
Proof.
  split.
  - apply (unstructured_failure_is_generic
             (answering (error_response 500 (js "<h1>Internal Server Error</h1>")))
             staged_world sheet_csv eq_refl).
    eapply body_not_json; [reflexivity | reflexivity | reflexivity |].
    vm_compute. reflexivity.
  - apply (unstructured_failure_is_generic _ staged_world sheet_csv eq_refl).
    by apply no_response.
Defined.

(** The body [null] is valid JSON too, and has no message; reading its
    [message] throws inside the inner [try], so the signal is the generic
    one. *)
Lemma null_body_gets_generic_message :
  JSON_parse (js "null") = Some VNull ∧
  is_2xx (error_response 400 (js "null")) = false ∧
  error (state (exec (handleUpload (answering (error_response 400 (js "null"))))
                  staged_world))
    = generic_error.
Proof.
  split; [vm_compute; reflexivity|].
  split; [reflexivity|].
  vm_compute. reflexivity.
Qed.

(** C6, as stated, fails on a body whose message is the empty string: the
    message is there, and the error signal is not that message with those
    details but the fallback text. *)
Lemma empty_message_gets_fallback :
  JSON_parse empty_message_body
    = Some (VObject [(js "message", VString []);
                     (js "details", VArray [VString (js "row 3 invalid")])]) ∧
  is_2xx (error_response 400 empty_message_body) = false ∧
  error (state (exec (handleUpload (answering (error_response 400 empty_message_body)))
                  staged_world))
    = {| message := VString (js "An error occurred during processing.");
         details := VArray [VString (js "row 3 invalid")] |} ∧
  error (state (exec (handleUpload (answering (error_response 400 empty_message_body)))
                  staged_world))
    ≠ claimed_error
        (VObject [(js "message", VString []);
                  (js "details", VArray [VString (js "row 3 invalid")])]).
Proof.
  split; [vm_compute; reflexivity|].
  split; [reflexivity|].
  split; [vm_compute; reflexivity|].
  vm_compute. discriminate.
Qed.

(** C6, amended. For a non-2xx response whose blob body parses as a JSON
    value other than [null], the error message is the body's [message] when
    that is truthy and [An error occurred during processing.] otherwise,
    and the details are the body's [details] when truthy and the empty list
    otherwise. *)
Theorem structured_error_is_decoded
    (env : Env) (w : World) (f : File) (r : Response) (t : jsstring) (v : value) :
  file (state w) = Some f →
  exchange env = Answered r →
  is_2xx r = false →
  data r = BlobData (Some t) →
  JSON_parse t = Some v →
  v ≠ VNull →
  outcome (handleUpload env) w = Normal () ∧
  error (state (exec (handleUpload env) w)) =
    {| message := or_else (property v (js "message"))
                    (VString (js "An error occurred during processing."));
       details := or_else (property v (js "details")) (VArray []) |}.
Proof.
  intros Hf Hx H2 Hd Hp Hnull.
  assert (Hfails : fails env (decoded_error v) 1).
  { eapply fails_structured; eauto.
    intros ->. by apply JSON_parse_defined in Hp. }
  unfold outcome, exec. rewrite (handleUpload_fails env w f _ _ Hf Hfails).
  by split.
Qed.

Lemma structured_error_is_decoded_witness :
  error (state (exec (handleUpload (answering (error_response 400 bad_rows_body)))
                  staged_world))
    = {| message := VString (js "Bad rows");
         details := VArray [VString (js "row 3 invalid")] |}.
Proof.
  assert (H := structured_error_is_decoded
    (answering (error_response 400 bad_rows_body)) staged_world sheet_csv
    (error_response 400 bad_rows_body) bad_rows_body
    (VObject [(js "message", VString (js "Bad rows"));
              (js "details", VArray [VString (js "row 3 invalid")])])
    eq_refl eq_refl eq_refl eq_refl).
  destruct H as [_ ->]; [vm_compute; reflexivity | discriminate |].
  vm_compute. reflexivity.
Defined.

(** ** The save name *)

(** C8. A 2xx response with no content-disposition header, or with one the
    filename pattern does not match, still succeeds: the success message is
    set, the Candidate File is cleared, and the download is saved as
    [processed_data.xlsx]. *)
Theorem default_name_when_header_unusable
    (env : Env) (w : World) (f : File) (r : Response) :
  file (state w) = Some f →
  succeeds env r →
  (headers r !! js "content-disposition" = None ∨
   ∃ cd, headers r !! js "content-disposition" = Some cd ∧
         String_match cd filename_re = None) →
  outcome (handleUpload env) w = Normal () ∧
  successMessage (state (exec (handleUpload env) w))
    = js "File processed and download started!" ∧
  error (state (exec (handleUpload env) w)) = no_error ∧
  file (state (exec (handleUpload env) w)) = None ∧
  downloads (exec (handleUpload env) w) =
    downloads w ++ [{| download := js "processed_data.xlsx";
                       payload := data r;
                       content_type := headers r !! js "content-type" |}].
Proof.
  intros Hf Hok Hcd. unfold outcome, exec.
  rewrite (handleUpload_succeeds env w f r Hf Hok).
  rewrite (resolve_fileName_no_match _ Hcd). by repeat split.
Qed.

Lemma default_name_when_header_unusable_witness :
  map download (downloads (exec (handleUpload (answering (ok_response None))) staged_world))
    = [js "processed_data.xlsx"] ∧
  map download
    (downloads (exec (handleUpload (answering (ok_response (Some (js "attachment")))))
                  staged_world))
    = [js "processed_data.xlsx"].
Proof.
  split.
  - assert (H := default_name_when_header_unusable
      (answering (ok_response None)) staged_world sheet_csv (ok_response None) eq_refl).
    destruct H as (_ & _ & _ & _ & ->); [by repeat split | by left | reflexivity].
  - assert (H := default_name_when_header_unusable
      (answering (ok_response (Some (js "attachment")))) staged_world sheet_csv
      (ok_response (Some (js "attachment"))) eq_refl).
    destruct H as (_ & _ & _ & _ & ->); [by repeat split | | reflexivity].
    right. exists (js "attachment"). split; vm_compute; reflexivity.
Defined.

(** C1. With the header [attachment; filename=] followed by [report.xlsx]
    in double quotes, a successful submission saves the download under
    [report.xlsx] followed by a double quote: the greedy group takes the
    closing quote, so the name is not [report.xlsx]. *)
Theorem quoted_filename_keeps_closing_quote
    (env : Env) (w : World) (f : File) (r : Response) :
  file (state w) = Some f →
  succeeds env r →
  headers r !! js "content-disposition" = Some quoted_report_header →
  downloads (exec (handleUpload env) w) =
    downloads w ++ [{| download := js "report.xlsx" ++ [dquote];
                       payload := data r;
                       content_type := headers r !! js "content-type" |}] ∧
  js "report.xlsx" ++ [dquote] ≠ js "report.xlsx".
Proof.
  intros Hf Hok Hcd. unfold exec.
  rewrite (handleUpload_succeeds env w f r Hf Hok), Hcd. split; [|discriminate].
  reflexivity.
Qed.

Lemma quoted_filename_keeps_closing_quote_witness :
  map download
    (downloads (exec (handleUpload (answering (ok_response (Some quoted_report_header))))
                  staged_world))
    = [js "report.xlsx" ++ [dquote]].
Proof.
  assert (H := quoted_filename_keeps_closing_quote
    (answering (ok_response (Some quoted_report_header))) staged_world sheet_csv
    (ok_response (Some quoted_report_header)) eq_refl).
  destruct H as [-> _]; [by repeat split | vm_compute; reflexivity | reflexivity].
Defined.

(** ** Sessions: the Candidate File and the two messages *)

Lemma reachable_at_rest (w : World) : reachable w → at_rest (state w).
Proof.
  induction 1 as [|w ev _ [Hbusy Hmsg]]; [by split|].
  destruct ev as [files | files | | | env]; cbn [handle].
  - unfold handleFileChange.
    destruct (validate_file_or_none w (head files)) as [Hs Hu].
    split; [congruence | done].
  - unfold handleDrop, exec, mbind, M_bind, setIsDragging, modify. cbn.
    destruct files as [[|f files]|]; cbn; try by split.
    destruct (validate_file_or_none
                (with_state w {| file := file (state w); isDragging := false;
                                 isUploading := isUploading (state w);
                                 error := error (state w);
                                 successMessage := successMessage (state w) |})
                (Some f)) as [Hs Hu].
    unfold exec in Hs, Hu. split; [by rewrite Hu | done].
  - by split.
  - by split.
  - destruct (file (state w)) as [f|] eqn:Hf.
    + unfold exec.
      destruct (succeeds_or_fails env) as [[r Hok] | (e & n & Hfails)].
      * rewrite (handleUpload_succeeds env w f r Hf Hok). by split.
      * rewrite (handleUpload_fails env w f e n Hf Hfails). by split.
    + unfold exec. rewrite (handleUpload_no_file env w Hf). cbn.
      split; [done|]. intros []. reflexivity.
Qed.

Lemma staged_world_reachable : reachable staged_world.
Proof.
  change staged_world with (exec (handle (FileChange [sheet_csv])) initial_world).
  apply reachable_step, reachable_initial.
Qed.

(** C10. In a session, a submission that fails leaves the Candidate File as
    it was and changes nothing but the error signal and the busy flag, which
    ends off; and a submission after which the staged file is no longer
    staged is one that succeeded. *)
Theorem failed_submission_keeps_candidate (env : Env) (w : World) (f : File) :
  reachable w →
  file (state w) = Some f →
  (∀ e n, fails env e n →
     state (exec (handleUpload env) w) =
       {| file := Some f; isDragging := isDragging (state w);
          isUploading := false; error := e;
          successMessage := successMessage (state w) |}) ∧
  (file (state (exec (handleUpload env) w)) ≠ Some f → ∃ r, succeeds env r).
Proof.
  intros [_ Hmsg]%reachable_at_rest Hf.
  assert (Hempty : successMessage (state w) = []) by (apply Hmsg; congruence).
  split.
  - intros e n Hfails. unfold exec.
    rewrite (handleUpload_fails env w f e n Hf Hfails). cbn.
    by rewrite Hf, Hempty.
  - intros Hgone.
    destruct (succeeds_or_fails env) as [Hok | (e & n & Hfails)]; [done|].
    exfalso. apply Hgone. unfold exec.
    by rewrite (handleUpload_fails env w f e n Hf Hfails).
Qed.

Lemma failed_submission_keeps_candidate_witness :
  state (exec (handleUpload (answering (error_response 400 bad_rows_body))) staged_world) =
    {| file := Some sheet_csv; isDragging := false; isUploading := false;
       error := {| message := VString (js "Bad rows");
                   details := VArray [VString (js "row 3 invalid")] |};
       successMessage := [] |}.
Proof.
  apply (proj1 (failed_submission_keeps_candidate
                  (answering (error_response 400 bad_rows_body))
                  staged_world sheet_csv staged_world_reachable eq_refl)
           _ 1%nat).
  apply (fails_structured _ (error_response 400 bad_rows_body) bad_rows_body
           (VObject [(js "message", VString (js "Bad rows"));
                     (js "details", VArray [VString (js "row 3 invalid")])]));
    first [reflexivity | discriminate].
Defined.

(** X2. Validation always ends with no success message, and a submission of
    a staged file during which no other handler runs shows both messages cleared while it waits and ends with at
    most one of them up. *)
Theorem messages_exclusive_when_staged (env : Env) (w : World) :
  (∀ selectedFile,
     successMessage (state (exec (validateAndSetFile selectedFile) w)) = []) ∧
  (∀ f, file (state w) = Some f →
     (ToBoolean (message (error (state (exec (handleUpload env) w)))) = false ∨
      successMessage (state (exec (handleUpload env) w)) = []) ∧
     ∃ seen,
       suspended (exec (handleUpload env) w) = suspended w ++ seen ∧
       seen ≠ [] ∧
       Forall (λ s, error s = no_error ∧ successMessage s = []) seen).
Proof.
  split.
  - intros selectedFile. apply validate_file_or_none.
  - intros f Hf. unfold exec.
    destruct (succeeds_or_fails env) as [[r Hok] | (e & n & Hfails)].
    + rewrite (handleUpload_succeeds env w f r Hf Hok). split; [by left|].
      exists [in_flight (state w)]. repeat split; [discriminate|].
      by constructor.
    + rewrite (handleUpload_fails env w f e n Hf Hfails). split; [by right|].
      exists (replicate (S n) (in_flight (state w))). repeat split; [discriminate|].
      by apply Forall_replicate.
Qed.

Lemma messages_exclusive_when_staged_witness :
  ToBoolean (message (error (state
    (exec (handleUpload (answering (ok_response None))) staged_world)))) = false ∨
  successMessage (state
    (exec (handleUpload (answering (ok_response None))) staged_world)) = [].
Proof.
  apply (proj2 (messages_exclusive_when_staged
                  (answering (ok_response None)) staged_world) sheet_csv eq_refl).
Defined.

(** ** The captured name *)

Lemma quote_is_no_terminator (c : N) :
  is_line_terminator c = true → charset_matches (Lit dquote) c = false.
Proof.
  unfold is_line_terminator. rewrite !orb_true_iff, !N.eqb_eq.
  intros [[[-> | ->] | ->] | ->]; reflexivity.
Qed.

Lemma canonicalize_inv (p c : N) :
  (p < 97 ∨ 122 < p) → (p < 65 ∨ 90 < p) →
  canonicalize p = canonicalize c → c = p.
Proof.
  unfold canonicalize. intros Hp1 Hp2.
  destruct (N.leb_spec 97 p), (N.leb_spec p 122),
    (N.leb_spec 97 c), (N.leb_spec c 122); cbn; lia.
Qed.

Lemma lit_dquote_matches (c : N) :
  charset_matches (Lit dquote) c = (c =? dquote).
Proof.
  cbn [charset_matches]. destruct (N.eqb_spec c dquote) as [->|Hne]; [reflexivity|].
  apply N.eqb_neq. intros Heq. apply Hne.
  apply (canonicalize_inv dquote c); unfold dquote; [lia | lia | done].
Qed.

Lemma opt_at_line_end (s : jsstring) :
  ends_line s → re_match [Opt (Lit dquote)] s = Some ([], []).
Proof.
  destruct s as [|c s]; [reflexivity|]. cbn [ends_line]. intros Hlt.
  cbn [re_match]. by rewrite (quote_is_no_terminator c Hlt).
Qed.

(** The greedy group before the closing [Q?] takes the whole rest of the
    line, and leaves nothing to the closing quote. *)
Lemma plus_loop_dot_result (s g whole : jsstring) (caps : list jsstring) :
  plus_loop Dot (re_match [Opt (Lit dquote)]) s = Some (g, (whole, caps)) →
  ∃ post, s = g ++ post ∧ g ≠ [] ∧
          Forall (λ c, is_line_terminator c = false) g ∧
          ends_line post ∧ whole = g ∧ caps = [].
Proof.
  revert g whole caps. induction s as [|c s IH]; intros g whole caps; [discriminate|].
  cbn [plus_loop]. destruct (charset_matches Dot c) eqn:Hc; [|discriminate].
  assert (Hlt : is_line_terminator c = false).
  { cbn in Hc. by destruct (is_line_terminator c). }
  destruct (plus_loop Dot (re_match [Opt (Lit dquote)]) s)
    as [[g' [whole' caps']]|] eqn:Hrec.
  - intros [= <- <- <-].
    destruct (IH g' whole' caps' eq_refl) as (post & -> & Hne & Hall & Hend & -> & ->).
    exists post. repeat split; [done | by constructor | done].
  - assert (Hend : ends_line s).
    { destruct s as [|c' s']; [done|]. cbn.
      destruct (is_line_terminator c') eqn:Hlt'; [done|]. exfalso.
      assert (Hsome : is_Some (plus_loop Dot (re_match [Opt (Lit dquote)]) (c' :: s'))).
      { apply plus_loop_is_Some; [apply opt_is_Some|].
        exists c', s'. split; [done|]. cbn. by rewrite Hlt'. }
      rewrite Hrec in Hsome. by destruct Hsome. }
    rewrite (opt_at_line_end s Hend). intros [= <- <- <-].
    exists s. repeat split; [done | by repeat constructor | done].
Qed.

Lemma group_plus_result (s whole : jsstring) (caps : list jsstring) :
  re_match [GroupPlus Dot; Opt (Lit dquote)] s = Some (whole, caps) →
  ∃ g post, s = g ++ post ∧ g ≠ [] ∧
            Forall (λ c, is_line_terminator c = false) g ∧
            ends_line post ∧ whole = g ∧ caps = [g].
Proof.
  change (re_match [GroupPlus Dot; Opt (Lit dquote)] s) with
    (match plus_loop Dot (re_match [Opt (Lit dquote)]) s with
     | Some (g, (whole, caps)) => Some (whole, g :: caps)
     | None => None
     end).
  destruct (plus_loop Dot (re_match [Opt (Lit dquote)]) s)
    as [[g [whole' caps']]|] eqn:Hloop; [|discriminate].
  intros [= <- <-].
  apply plus_loop_dot_result in Hloop as (post & -> & Hne & Hall & Hend & -> & ->).
  by exists g, post.
Qed.

Lemma filename_tail_result (s whole : jsstring) (caps : list jsstring) :
  re_match [Opt (Lit dquote); GroupPlus Dot; Opt (Lit dquote)] s = Some (whole, caps) →
  ∃ q g post, s = q ++ g ++ post ∧ (q = [] ∨ q = [dquote]) ∧ g ≠ [] ∧
              Forall (λ c, is_line_terminator c = false) g ∧
              ends_line post ∧ whole = q ++ g ∧ caps = [g].
Proof.
  change (re_match [Opt (Lit dquote); GroupPlus Dot; Opt (Lit dquote)] s) with
    (match
       match s with
       | c :: s' =>
           if charset_matches (Lit dquote) c
           then took c (re_match [GroupPlus Dot; Opt (Lit dquote)] s')
           else None
       | [] => None
       end
     with
     | Some r => Some r
     | None => re_match [GroupPlus Dot; Opt (Lit dquote)] s
     end).
  assert (Hplain : ∀ whole caps,
    re_match [GroupPlus Dot; Opt (Lit dquote)] s = Some (whole, caps) →
    ∃ q g post, s = q ++ g ++ post ∧ (q = [] ∨ q = [dquote]) ∧ g ≠ [] ∧
                Forall (λ c, is_line_terminator c = false) g ∧
                ends_line post ∧ whole = q ++ g ∧ caps = [g]).
  { intros w cs (g & post & -> & Hne & Hall & Hend & -> & ->)%group_plus_result.
    exists [], g, post. repeat split; auto. }
  destruct s as [|c s']; [apply Hplain|].
  rewrite lit_dquote_matches. destruct (N.eqb_spec c dquote) as [->|Hne]; [|apply Hplain].
  destruct (re_match [GroupPlus Dot; Opt (Lit dquote)] s') as [[w cs]|] eqn:Hin;
    [|apply Hplain].
  cbn [took]. intros [= <- <-].
  apply group_plus_result in Hin as (g & post & -> & Hne & Hall & Hend & -> & ->).
  exists [dquote], g, post. repeat split; auto.
Qed.

Lemma re_match_literal_result (k : jsstring) (rest : list term)
    (s whole : jsstring) (caps : list jsstring) :
  re_match (map (λ c, One (Lit c)) k ++ rest) s = Some (whole, caps) →
  ∃ key s' whole', s = key ++ s' ∧
                   map canonicalize key = map canonicalize k ∧
                   re_match rest s' = Some (whole', caps) ∧
                   whole = key ++ whole'.
Proof.
  revert s whole. induction k as [|a k IH]; intros s whole.
  - intros H. by exists [], s, whole.
  - cbn [map app re_match]. destruct s as [|c s]; [discriminate|].
    unfold charset_matches.
    destruct (N.eqb_spec (canonicalize a) (canonicalize c)) as [Hc|Hc]; [|discriminate].
    destruct (re_match (map (λ c, One (Lit c)) k ++ rest) s) as [[w cs]|] eqn:Hrec;
      [|discriminate].
    cbn [took]. intros [= <- <-].
    destruct (IH s w Hrec) as (key & s' & whole' & -> & Hkey & Hrest & ->).
    exists (c :: key), s', whole'. cbn. by rewrite Hkey, Hc.
Qed.

Lemma re_exec_result (p : list term) (s : jsstring) (r : match_result) :
  re_exec p s = Some r →
  ∃ pre suf, s = pre ++ suf ∧ re_match p suf = Some r.
Proof.
  induction s as [|c s IH]; cbn [re_exec].
  - destruct (re_match p []) eqn:Hm; [|discriminate].
    intros [= <-]. by exists [], [].
  - destruct (re_match p (c :: s)) eqn:Hm.
    + intros [= <-]. by exists [], (c :: s).
    + intros (pre & suf & -> & Hsuf)%IH. by exists (c :: pre), suf.
Qed.

Lemma String_match_filename_shape (cd : jsstring) (fileNameMatch : list jsstring) :
  String_match cd filename_re = Some fileNameMatch →
  ∃ pre key q fileName post,
    fileNameMatch = [key ++ q ++ fileName; fileName] ∧
    cd = pre ++ key ++ q ++ fileName ++ post ∧
    map canonicalize key = map canonicalize (js "filename=") ∧
    (q = [] ∨ q = [dquote]) ∧
    fileName ≠ [] ∧
    Forall (λ c, is_line_terminator c = false) fileName ∧
    ends_line post.
Proof.
  unfold String_match.
  destruct (re_exec filename_re cd) as [[whole caps]|] eqn:Hexec; [|discriminate].
  intros [= <-].
  apply re_exec_result in Hexec as (pre & suf & -> & Hm).
  unfold filename_re in Hm.
  apply re_match_literal_result in Hm as (key & s' & whole' & -> & Hkey & Htail & ->).
  apply filename_tail_result in Htail
    as (q & g & post & -> & Hq & Hne & Hall & Hend & -> & ->).
  exists pre, key, q, g, post. repeat split; auto.
Qed.

(** X4. Whenever the filename pattern matches, the match array has exactly
    two entries, and the captured name is not empty, holds no line
    terminator and runs to the end of the line: what comes after
    [filename=] and one optional opening quote is taken whole, a closing
    quote and any further parameter included. *)
Theorem filename_capture_runs_to_end_of_line
    (cd : jsstring) (fileNameMatch : list jsstring) :
  String_match cd filename_re = Some fileNameMatch →
  ∃ pre key q fileName post,
    fileNameMatch = [key ++ q ++ fileName; fileName] ∧
    cd = pre ++ key ++ q ++ fileName ++ post ∧
    map canonicalize key = map canonicalize (js "filename=") ∧
    (q = [] ∨ q = [dquote]) ∧
    fileName ≠ [] ∧
    Forall (λ c, is_line_terminator c = false) fileName ∧
    ends_line post.
Proof.
  intros Hm. destruct (String_match_filename_shape cd fileNameMatch Hm)
    as (pre & key & q & fileName & post & H).
  by exists pre, key, q, fileName, post.
Qed.

Lemma filename_capture_runs_to_end_of_line_witness :
  ∃ pre key q fileName post,
    [js "filename=" ++ [dquote] ++ js "a.csv" ++ [dquote] ++ js "; size=3";
     js "a.csv" ++ [dquote] ++ js "; size=3"]
      = [key ++ q ++ fileName; fileName] ∧
    js "inline; filename=" ++ [dquote] ++ js "a.csv" ++ [dquote] ++ js "; size=3"
      = pre ++ key ++ q ++ fileName ++ post ∧
    map canonicalize key = map canonicalize (js "filename=") ∧
    (q = [] ∨ q = [dquote]) ∧
    fileName ≠ [] ∧
    Forall (λ c, is_line_terminator c = false) fileName ∧
    ends_line post.
Proof.
  apply (filename_capture_runs_to_end_of_line
    (js "inline; filename=" ++ [dquote] ++ js "a.csv" ++ [dquote] ++ js "; size=3")).
  vm_compute. reflexivity.
Defined.

Lemma plus_loop_dot_takes_line (v post : jsstring) :
  v ≠ [] →
  Forall (λ c, is_line_terminator c = false) v →
  ends_line post →
  plus_loop Dot (re_match [Opt (Lit dquote)]) (v ++ post) = Some (v, (v, [])).
Proof.
  intros Hne Hall Hend. induction v as [|c v IH]; [done|].
  apply Forall_cons in Hall as [Hc Hall].
  cbn [app plus_loop charset_matches]. rewrite Hc. cbn [negb].
  destruct v as [|c' v].
  - cbn [app].
    assert (Hnone : plus_loop Dot (re_match [Opt (Lit dquote)]) post = None).
    { destruct post as [|p post]; [reflexivity|]. cbn in Hend.
      cbn [plus_loop charset_matches]. by rewrite Hend. }
    by rewrite Hnone, (opt_at_line_end post Hend).
  - by rewrite IH.
Qed.

Lemma group_plus_takes_line (v post : jsstring) :
  v ≠ [] →
  Forall (λ c, is_line_terminator c = false) v →
  ends_line post →
  re_match [GroupPlus Dot; Opt (Lit dquote)] (v ++ post) = Some (v, [v]).
Proof.
  intros Hne Hall Hend.
  change (re_match [GroupPlus Dot; Opt (Lit dquote)] (v ++ post)) with
    (match plus_loop Dot (re_match [Opt (Lit dquote)]) (v ++ post) with
     | Some (g, (whole, caps)) => Some (whole, g :: caps)
     | None => None
     end).
  by rewrite plus_loop_dot_takes_line.
Qed.

Lemma group_plus_needs_a_character (post : jsstring) :
  ends_line post → re_match [GroupPlus Dot; Opt (Lit dquote)] post = None.
Proof.
  intros Hend.
  destruct (re_match [GroupPlus Dot; Opt (Lit dquote)] post) as [r|] eqn:Hm; [|done].
  assert (Hsome : is_Some (re_match [GroupPlus Dot; Opt (Lit dquote)] post))
    by (by rewrite Hm).
  apply group_plus_is_Some in Hsome as (c & s' & -> & Hc).
  cbn in Hend, Hc. by rewrite Hend in Hc.
Qed.

Lemma filename_tail_takes_line (v post : jsstring) :
  v ≠ [] →
  Forall (λ c, is_line_terminator c = false) v →
  ends_line post →
  re_match [Opt (Lit dquote); GroupPlus Dot; Opt (Lit dquote)] (v ++ post)
    = Some (v, [without_leading_quote v]).
Proof.
  intros Hne Hall Hend.
  change (re_match [Opt (Lit dquote); GroupPlus Dot; Opt (Lit dquote)] (v ++ post)) with
    (match
       match v ++ post with
       | c :: s' =>
           if charset_matches (Lit dquote) c
           then took c (re_match [GroupPlus Dot; Opt (Lit dquote)] s')
           else None
       | [] => None
       end
     with
     | Some r => Some r
     | None => re_match [GroupPlus Dot; Opt (Lit dquote)] (v ++ post)
     end).
  destruct v as [|q v]; [done|]. cbn [app]. rewrite lit_dquote_matches.
  change (q :: v ++ post) with ((q :: v) ++ post).
  unfold without_leading_quote.
  destruct (q =? dquote) eqn:Hq.
  - apply Forall_cons in Hall as [_ Hall]. destruct v as [|c r].
    + cbn [app]. rewrite (group_plus_needs_a_character post Hend).
      change (q :: post) with ([q] ++ post).
      rewrite group_plus_takes_line; [done | done | | done].
      apply N.eqb_eq in Hq as ->. by repeat constructor.
    + by rewrite group_plus_takes_line.
  - rewrite group_plus_takes_line; [|done..]. by destruct v.
Qed.

Lemma re_match_literal_takes (k key : jsstring) (rest : list term)
    (s whole : jsstring) (caps : list jsstring) :
  map canonicalize key = map canonicalize k →
  re_match rest s = Some (whole, caps) →
  re_match (map (λ c, One (Lit c)) k ++ rest) (key ++ s) = Some (key ++ whole, caps).
Proof.
  revert key. induction k as [|a k IH]; intros [|c key] Hkey Hrest; try discriminate.
  - done.
  - cbn in Hkey. injection Hkey as Hc Hkey.
    cbn [map app re_match charset_matches]. rewrite Hc, N.eqb_refl.
    by rewrite (IH key Hkey Hrest).
Qed.

(** The key [filename=] as it can be spelled: eight characters that are not
    the equals sign, then the equals sign. *)
Lemma filename_key_shape (key : jsstring) :
  map canonicalize key = map canonicalize (js "filename=") →
  length key = 9%nat ∧ ∀ i c, (i < 8)%nat → key !! i = Some c → c ≠ 61.
Proof.
  intros Hkey.
  do 9 (destruct key as [|? key]; [discriminate|]).
  destruct key; [|discriminate]. split; [reflexivity|].
  injection Hkey as H0 H1 H2 H3 H4 H5 H6 H7 H8.
  assert (Hletter : ∀ x p, (65 ≤ p ∧ p ≤ 90) → canonicalize x = p → x ≠ 61).
  { intros x p Hp Hx ->. unfold canonicalize in Hx. cbn in Hx. lia. }
  intros i c Hi Hc.
  do 8 (destruct i as [|i];
        [injection Hc as <-; eapply Hletter; [|eassumption]; vm_compute; split; discriminate|]).
  lia.
Qed.

Lemma filename_re_needs_equals (s : jsstring) :
  is_Some (re_match filename_re s) → s !! 8%nat = Some 61.
Proof.
  unfold filename_re. intros (key & s' & -> & Hkey & _)%re_match_literal.
  do 9 (destruct key as [|? key]; [discriminate|]).
  injection Hkey as _ _ _ _ _ _ _ _ H8 _. cbn.
  f_equal. by apply (canonicalize_inv 61); [lia | lia |].
Qed.

Lemma re_exec_skips_prefix (pre key s : jsstring) (r : match_result) :
  Forall (λ c, c ≠ 61) pre →
  map canonicalize key = map canonicalize (js "filename=") →
  re_match filename_re (key ++ s) = Some r →
  re_exec filename_re (pre ++ key ++ s) = Some r.
Proof.
  intros Hpre Hkey Hm. induction pre as [|c pre IH].
  - cbn [app]. destruct (key ++ s); cbn [re_exec]; by rewrite Hm.
  - apply Forall_cons in Hpre as [Hc Hpre]. cbn [app re_exec].
    destruct (re_match filename_re (c :: pre ++ key ++ s)) as [r'|] eqn:Hearly;
      [|by apply IH].
    exfalso.
    assert (Heq : (c :: pre ++ key ++ s) !! 8%nat = Some 61).
    { apply filename_re_needs_equals. by rewrite Hearly. }
    destruct (filename_key_shape key Hkey) as [Hlen Hletters].
    change (c :: pre ++ key ++ s) with ((c :: pre) ++ key ++ s) in Heq.
    destruct (decide (8 < length (c :: pre))%nat) as [Hin|Hout].
    + rewrite lookup_app_l in Heq by done.
      assert (Hall : Forall (λ c, c ≠ 61) (c :: pre)) by (by constructor).
      by apply (Forall_lookup_1 _ _ _ _ Hall) in Heq.
    + rewrite lookup_app_r in Heq by lia.
      rewrite lookup_app_l in Heq by (cbn [length] in *; lia).
      apply Hletters in Heq; [done|]. cbn [length]. lia.
Qed.

(** X5. For a header made of text without an equals sign, then [filename=]
    in any letter case, then a non-empty value up to the end of the line,
    the save name is that value without its opening quote, if it has one
    and more follows: an unquoted name is resolved as it is, a quoted one
    keeps its closing quote. *)
Theorem filename_value_is_rest_of_line (pre key v post : jsstring) :
  Forall (λ c, c ≠ 61) pre →
  map canonicalize key = map canonicalize (js "filename=") →
  v ≠ [] →
  Forall (λ c, is_line_terminator c = false) v →
  ends_line post →
  resolve_fileName (Some (pre ++ key ++ v ++ post)) = without_leading_quote v.
Proof.
  intros Hpre Hkey Hne Hall Hend.
  assert (Hexec : re_exec filename_re (pre ++ key ++ v ++ post)
                  = Some (key ++ v, [without_leading_quote v])).
  { apply re_exec_skips_prefix; [done..|]. unfold filename_re.
    apply re_match_literal_takes; [done|]. by apply filename_tail_takes_line. }
  unfold resolve_fileName, String_match.
  destruct (pre ++ key ++ v ++ post) as [|c cd] eqn:Hcd.
  - destruct pre, key; discriminate.
  - by rewrite Hexec.
Qed.

Lemma filename_value_is_rest_of_line_witness :
  resolve_fileName (Some (js "attachment; FileName=report.xlsx")) = js "report.xlsx" ∧
  resolve_fileName
    (Some (js "attachment; filename=" ++ [dquote] ++ js "my report.xlsx" ++ [dquote]))
    = js "my report.xlsx" ++ [dquote].
Proof.
  split.
  - apply (filename_value_is_rest_of_line
             (js "attachment; ") (js "FileName=") (js "report.xlsx") []);
      try done; try (apply (bool_decide_unpack _); vm_compute; reflexivity).
  - apply (filename_value_is_rest_of_line
             (js "attachment; ") (js "filename=")
             ([dquote] ++ js "my report.xlsx" ++ [dquote]) []);
      try done; try (apply (bool_decide_unpack _); vm_compute; reflexivity).
Defined.

(** X14. The name a download is saved under is never empty and never
    holds a line terminator, whatever the content-disposition header is. *)
Theorem save_name_is_a_one_line_name (contentDisposition : option jsstring) :
  resolve_fileName contentDisposition ≠ [] ∧
  Forall (λ c, is_line_terminator c = false) (resolve_fileName contentDisposition).
Proof.
  assert (Hdefault : default_fileName ≠ [] ∧
                     Forall (λ c, is_line_terminator c = false) default_fileName).
  { split; [discriminate|]. apply (bool_decide_unpack _). vm_compute. reflexivity. }
  unfold resolve_fileName.
  destruct contentDisposition as [[|c cd]|]; try exact Hdefault.
  destruct (String_match (c :: cd) filename_re) as [fileNameMatch|] eqn:Hm;
    [|exact Hdefault].
  apply String_match_filename_shape in Hm
    as (pre & key & q & fileName & post & -> & _ & _ & _ & Hne & Hall & _).
  cbn. by split.
Qed.

(** ** Gestures *)

Lemma validate_effect (w : World) (selectedFile : option File) :
  ∃ s', validateAndSetFile selectedFile w = (Normal (), with_state w s') ∧
        gesture_effect (state w) s'.
Proof.
  destruct selectedFile as [f|].
  - destruct (decide (type f ∈ accepted_media_types)) as [Hin|Hout].
    + eexists. split; [by apply validate_accepted|]. by apply effect_staged.
    + eexists. split; [apply validate_rejected; by intros ? [= <-]|].
      apply effect_rejected.
  - eexists. split; [by apply validate_rejected|]. apply effect_rejected.
Qed.

Lemma gesture_handler_effect (g : gesture) (w : World) :
  ∃ s', gesture_handler g w = (Normal (), with_state w s') ∧
        gesture_effect (state w) s'.
Proof.
  destruct g as [files | files | | ]; cbn [gesture_handler].
  - apply validate_effect.
  - unfold handleDrop, mbind, M_bind, setIsDragging, modify.
    destruct files as [[|f files]|].
    + eexists. split; [reflexivity|]. apply effect_drag.
    + destruct (validate_effect
        (with_state w {| file := file (state w); isDragging := false;
                         isUploading := isUploading (state w);
                         error := error (state w);
                         successMessage := successMessage (state w) |}) (Some f))
        as (s' & -> & Heff).
      exists s'. split; [reflexivity|].
      cbn in Heff. destruct Heff; cbn; by constructor.
    + eexists. split; [reflexivity|]. apply effect_drag.
  - eexists. split; [reflexivity|]. apply effect_drag.
  - eexists. split; [reflexivity|]. apply effect_drag.
Qed.

Lemma gesture_effect_kept (s s' : State) :
  gesture_effect s s' → kept_by_gestures s s'.
Proof.
  intros [b | f b Hin | b]; repeat split; cbn; auto.
  - intros ? [= <-]. by left.
  - intros ? [=].
Qed.

Lemma kept_by_gestures_refl (s : State) : kept_by_gestures s s.
Proof. repeat split; auto. Qed.

Lemma kept_by_gestures_trans (s1 s2 s3 : State) :
  kept_by_gestures s1 s2 → kept_by_gestures s2 s3 → kept_by_gestures s1 s3.
Proof.
  intros (Hb1 & Hf1 & Hm1 & He1) (Hb2 & Hf2 & Hm2 & He2). repeat split.
  - congruence.
  - intros f Hf. destruct (Hf2 f Hf) as [|Hprev]; [by left|]. by apply Hf1.
  - destruct Hm2 as [|(Hs & He & Hf)]; [by left|].
    destruct Hm1 as [Hm1|(Hs1 & He1' & Hf1')]; [left; congruence|].
    right. repeat split; congruence.
  - destruct He2 as [He2 | [He2 | He2]]; [|by right; left|by right; right].
    rewrite He2. exact He1.
Qed.

(** A run of gestures completes normally, sends and downloads nothing, and
    shows only states that keep the busy flag as it was. *)
Lemma meanwhile_effect (gs : list gesture) (w : World) :
  ∃ s' seen,
    meanwhile gs w =
      (Normal (),
       {| state := s'; requests := requests w; downloads := downloads w;
          suspended := suspended w ++ seen |}) ∧
    kept_by_gestures (state w) s' ∧
    Forall (kept_by_gestures (state w)) seen.
Proof.
  revert w. induction gs as [|g gs IH]; intros w.
  - exists (state w), []. rewrite app_nil_r. split; [by destruct w|].
    split; [apply kept_by_gestures_refl | constructor].
  - destruct (gesture_handler_effect g w) as (s1 & Hg & Heff%gesture_effect_kept).
    cbn [meanwhile]. unfold mbind, M_bind at 1. rewrite Hg.
    unfold mbind, M_bind at 1. unfold await_point at 1.
    cbn [state requests downloads suspended with_state].
    destruct (IH {| state := s1; requests := requests w; downloads := downloads w;
                    suspended := suspended w ++ [s1] |})
      as (s' & seen & -> & Hkept & Hseen).
    cbn [state requests downloads suspended] in *.
    exists s', (s1 :: seen). rewrite <- app_assoc. split; [reflexivity|].
    split; [by eapply kept_by_gestures_trans|].
    constructor; [done|].
    eapply Forall_impl; [exact Hseen|]. intros s Hs.
    by eapply kept_by_gestures_trans.
Qed.

Lemma meanwhile_normal (gs : list gesture) (w : World) :
  meanwhile gs w = (Normal (), exec (meanwhile gs) w).
Proof.
  destruct (meanwhile_effect gs w) as (s' & seen & Hrun & _).
  unfold exec. by rewrite Hrun.
Qed.

(** ** A submission with gestures in between, path by path *)

Lemma handleUpload_during_succeeds
    (env : Env) (gs1 gs2 : list gesture) (w : World) (f : File) (r : Response) :
  file (state w) = Some f →
  succeeds env r →
  handleUpload_during env gs1 gs2 w =
    (Normal (),
     {| state :=
          {| file := None;
             isDragging := isDragging (state (resumed env f gs1 gs2 0 w));
             isUploading := false;
             error := error (state (resumed env f gs1 gs2 0 w));
             successMessage := download_started |};
        requests := requests (resumed env f gs1 gs2 0 w);
        downloads := downloads (resumed env f gs1 gs2 0 w) ++
          [{| download := resolve_fileName (headers r !! js "content-disposition");
              payload := data r;
              content_type := headers r !! js "content-type" |}];
        suspended := suspended (resumed env f gs1 gs2 0 w) |}).
Proof.
  intros Hf (Hx & H2 & Hd). unfold is_2xx in H2.
  destruct w as [[fl dr up er sm] rq dl su]; cbn in Hf; subst fl.
  unfold_interleaved. cbn [state file]. rewrite meanwhile_normal, Hx, H2, Hd.
  reflexivity.
Qed.

Lemma handleUpload_during_fails
    (env : Env) (gs1 gs2 : list gesture) (w : World) (f : File)
    (e : Error) (n : nat) :
  file (state w) = Some f →
  fails env e n →
  handleUpload_during env gs1 gs2 w =
    (Normal (),
     {| state :=
          {| file := file (state (resumed env f gs1 gs2 n w));
             isDragging := isDragging (state (resumed env f gs1 gs2 n w));
             isUploading := false;
             error := e;
             successMessage := successMessage (state (resumed env f gs1 gs2 n w)) |};
        requests := requests (resumed env f gs1 gs2 n w);
        downloads := downloads (resumed env f gs1 gs2 n w);
        suspended := suspended (resumed env f gs1 gs2 n w) |}).
Proof.
  intros Hf Hfails.
  destruct Hfails as
    [Hx | r Hx H2 Hd | r Hx H2 Hd | r Hx H2 Hd | r t Hx H2 Hd Hp
    | r t v Hx H2 Hd Hp Hv | r t v Hx H2 Hd Hp Hnull Hundef];
    destruct w as [[fl dr up er sm] rq dl su]; cbn in Hf; subst fl;
    unfold is_2xx in *; unfold_interleaved; cbn [state file];
    rewrite meanwhile_normal, Hx; try rewrite H2; try rewrite Hd.
  - reflexivity.
  - reflexivity.
  - destruct r; cbn in Hd; subst. reflexivity.
  - destruct r; cbn in Hd; subst. cbn [exn_response data].
    rewrite meanwhile_normal. reflexivity.
  - destruct r; cbn in Hd; subst. cbn [exn_response data].
    rewrite meanwhile_normal, Hp. reflexivity.
  - destruct r; cbn in Hd; subst. cbn [exn_response data].
    rewrite meanwhile_normal, Hp. destruct Hv; subst; reflexivity.
  - destruct r; cbn in Hd; subst. cbn [exn_response data].
    rewrite meanwhile_normal, Hp. destruct v; try congruence; reflexivity.
Qed.

(** With no gesture in between, it is [handleUpload]. *)
Lemma handleUpload_during_alone (env : Env) (w : World) :
  handleUpload_during env [] [] w = handleUpload env w.
Proof.
  destruct (file (state w)) as [f|] eqn:Hf.
  - destruct (succeeds_or_fails env) as [[r Hok] | (e & n & Hfails)].
    + rewrite (handleUpload_during_succeeds env [] [] w f r Hf Hok),
        (handleUpload_succeeds env w f r Hf Hok). reflexivity.
    + rewrite (handleUpload_during_fails env [] [] w f e n Hf Hfails),
        (handleUpload_fails env w f e n Hf Hfails).
      destruct n as [|n]; cbn; rewrite ?Hf; try reflexivity.
      destruct n; [|by inversion Hfails].
      by rewrite <- app_assoc.
  - rewrite (handleUpload_no_file env w Hf).
    unfold handleUpload_during, mbind, M_bind. rewrite Hf.
    unfold setError, modify, with_state. cbn. by rewrite Hf.
Qed.

Lemma meanwhile_world (gs : list gesture) (w : World) :
  requests (exec (meanwhile gs) w) = requests w ∧
  downloads (exec (meanwhile gs) w) = downloads w ∧
  kept_by_gestures (state w) (state (exec (meanwhile gs) w)) ∧
  ∃ seen, suspended (exec (meanwhile gs) w) = suspended w ++ seen ∧
          Forall (kept_by_gestures (state w)) seen.
Proof.
  destruct (meanwhile_effect gs w) as (s' & seen & Hrun & Hkept & Hseen).
  unfold exec. rewrite Hrun. cbn. repeat split; try apply Hkept.
  by exists seen.
Qed.

Lemma meanwhile_cons (g : gesture) (gs : list gesture) (w : World) :
  meanwhile (g :: gs) w = meanwhile gs (exec await_point (exec (gesture_handler g) w)).
Proof.
  destruct (gesture_handler_effect g w) as (s1 & Hg & _).
  cbn [meanwhile]. unfold exec, mbind, M_bind. by rewrite Hg.
Qed.

Lemma meanwhile_app (gs gs' : list gesture) (w : World) :
  exec (meanwhile (gs ++ gs')) w = exec (meanwhile gs') (exec (meanwhile gs) w).
Proof.
  revert w. induction gs as [|g gs IH]; intros w; [reflexivity|].
  cbn [app]. unfold exec at 1 3. rewrite !meanwhile_cons. apply IH.
Qed.

(** The world a submission resumes in: its one request is out, nothing was
    downloaded, and every state shown since the click is the in-flight
    state as gestures changed it. *)
Lemma resumed_world (env : Env) (f : File) (gs1 gs2 : list gesture)
    (n : nat) (w : World) :
  requests (resumed env f gs1 gs2 n w) = requests w ++ [upload_request env f] ∧
  downloads (resumed env f gs1 gs2 n w) = downloads w ∧
  kept_by_gestures (in_flight (state w)) (state (resumed env f gs1 gs2 n w)) ∧
  ∃ seen, suspended (resumed env f gs1 gs2 n w) = suspended w ++ seen ∧
          seen ≠ [] ∧
          Forall (kept_by_gestures (in_flight (state w))) seen.
Proof.
  destruct (meanwhile_world gs1 (begun env f w))
    as (Hrq1 & Hdl1 & Hkept1 & seen1 & Hsu1 & Hseen1).
  cbn [begun state requests downloads suspended] in *.
  destruct n as [|n]; cbn [resumed].
  - rewrite Hrq1, Hdl1. repeat split; try apply Hkept1.
    exists (in_flight (state w) :: seen1). rewrite Hsu1, <- app_assoc.
    split; [done|]. split; [done|].
    constructor; [apply kept_by_gestures_refl | done].
  - remember (exec (meanwhile gs1) (begun env f w)) as w1 eqn:Hw1.
    destruct (meanwhile_world gs2 (exec await_point w1))
      as (Hrq2 & Hdl2 & Hkept2 & seen2 & Hsu2 & Hseen2).
    change (state (exec await_point w1)) with (state w1) in Hkept2, Hseen2.
    change (requests (exec await_point w1)) with (requests w1) in Hrq2.
    change (downloads (exec await_point w1)) with (downloads w1) in Hdl2.
    change (suspended (exec await_point w1)) with (suspended w1 ++ [state w1]) in Hsu2.
    assert (Hkept : kept_by_gestures (in_flight (state w))
                      (state (exec (meanwhile gs2) (exec await_point w1))))
      by (by eapply kept_by_gestures_trans).
    rewrite Hrq2, Hrq1, Hdl2, Hdl1. repeat split; try apply Hkept.
    exists (in_flight (state w) :: seen1 ++ state w1 :: seen2).
    rewrite Hsu2, Hsu1, <- !app_assoc. split; [done|]. split; [done|].
    apply Forall_cons_2; [apply kept_by_gestures_refl|].
    apply Forall_app_2; [done|].
    constructor; [done|].
    eapply Forall_impl; [exact Hseen2|]. intros s Hs.
    exact (kept_by_gestures_trans _ _ _ Hkept1 Hs).
Qed.

(** ** What a submission leaves on screen *)

Lemma fails_message_truthy (env : Env) (e : Error) (n : nat) :
  fails env e n → ToBoolean (message e) = true.
Proof.
  assert (Hdecoded : ∀ v, ToBoolean (message (decoded_error v)) = true).
  { intros v. unfold decoded_error, or_else. cbn [message].
    by destruct (ToBoolean (property v (js "message"))) eqn:Hm. }
  destruct 1; try reflexivity. apply Hdecoded.
Qed.

(** ** Gestures while a submission is in flight *)

(** X7. Whatever the user picks, drops or drags while a submission is in
    flight, the submission completes normally with the busy flag off, sends
    its one request, and every state on screen in between has the busy flag
    on: the upload button, where it is rendered, is disabled and reads
    [Processing...]. *)
Theorem busy_through_gestures
    (env : Env) (gs1 gs2 : list gesture) (w : World) (f : File) :
  file (state w) = Some f →
  outcome (handleUpload_during env gs1 gs2) w = Normal () ∧
  isUploading (state (exec (handleUpload_during env gs1 gs2) w)) = false ∧
  requests (exec (handleUpload_during env gs1 gs2) w)
    = requests w ++ [upload_request env f] ∧
  ∃ seen,
    suspended (exec (handleUpload_during env gs1 gs2) w) = suspended w ++ seen ∧
    seen ≠ [] ∧
    Forall (λ s, isUploading s = true ∧
                 ∀ b, button (render s) = Some b →
                      disabled b = true ∧ label b = js "Processing...") seen.
Proof.
  intros Hf.
  assert (Hshown : ∀ seen,
    Forall (kept_by_gestures (in_flight (state w))) seen →
    Forall (λ s, isUploading s = true ∧
                 ∀ b, button (render s) = Some b →
                      disabled b = true ∧ label b = js "Processing...") seen).
  { intros seen Hseen. eapply Forall_impl; [exact Hseen|]. intros s (Hbusy & _).
    cbn in Hbusy. split; [done|]. intros b. unfold render. cbn [button].
    destruct (file s); [|discriminate]. intros [= <-]. cbn. by rewrite Hbusy. }
  unfold outcome, exec.
  destruct (succeeds_or_fails env) as [[r Hok] | (e & n & Hfails)].
  - rewrite (handleUpload_during_succeeds env gs1 gs2 w f r Hf Hok).
    destruct (resumed_world env f gs1 gs2 0 w) as (Hrq & _ & _ & seen & Hsu & Hne & Hseen).
    cbn. repeat split; [done|]. exists seen. repeat split; [done | done | by apply Hshown].
  - rewrite (handleUpload_during_fails env gs1 gs2 w f e n Hf Hfails).
    destruct (resumed_world env f gs1 gs2 n w) as (Hrq & _ & _ & seen & Hsu & Hne & Hseen).
    cbn. repeat split; [done|]. exists seen. repeat split; [done | done | by apply Hshown].
Qed.

Lemma busy_through_gestures_witness :
  isUploading (state (exec (handleUpload_during (answering (ok_response None))
                              [Over; DropOn (Some [notes_pdf])] []) staged_world)) = false ∧
  requests (exec (handleUpload_during (answering (ok_response None))
                    [Over; DropOn (Some [notes_pdf])] []) staged_world)
    = [upload_request (answering (ok_response None)) sheet_csv].
Proof.
  pose proof (busy_through_gestures (answering (ok_response None))
    [Over; DropOn (Some [notes_pdf])] [] staged_world sheet_csv eq_refl) as H.
  split; apply H.
Defined.

(** X8. When a submission succeeds, the Candidate File is cleared whatever
    was picked while it was in flight: a file picked meanwhile is unstaged
    without having been sent, the only request being the one for the file
    staged at the click, and the upload button is gone. *)
Theorem success_unstages_what_was_picked_meanwhile
    (env : Env) (gs1 gs2 : list gesture) (w : World) (f : File) (r : Response) :
  file (state w) = Some f →
  succeeds env r →
  file (state (exec (handleUpload_during env gs1 gs2) w)) = None ∧
  button (render (state (exec (handleUpload_during env gs1 gs2) w))) = None ∧
  successMessage (state (exec (handleUpload_during env gs1 gs2) w))
    = js "File processed and download started!" ∧
  requests (exec (handleUpload_during env gs1 gs2) w)
    = requests w ++ [upload_request env f] ∧
  downloads (exec (handleUpload_during env gs1 gs2) w)
    = downloads w ++ [{| download := resolve_fileName (headers r !! js "content-disposition");
                         payload := data r;
                         content_type := headers r !! js "content-type" |}].
Proof.
  intros Hf Hok. unfold exec.
  rewrite (handleUpload_during_succeeds env gs1 gs2 w f r Hf Hok).
  destruct (resumed_world env f gs1 gs2 0 w) as (Hrq & Hdl & _).
  repeat split; try reflexivity; [exact Hrq|].
  exact (f_equal (λ l, l ++ [_]) Hdl).
Qed.

Lemma success_unstages_what_was_picked_meanwhile_witness :
  file (state (exec (meanwhile [Pick [rates_xls]])
                 (begun (answering (ok_response None)) sheet_csv staged_world)))
    = Some rates_xls ∧
  file (state (exec (handleUpload_during (answering (ok_response None))
                       [Pick [rates_xls]] []) staged_world)) = None ∧
  map body (requests (exec (handleUpload_during (answering (ok_response None))
                              [Pick [rates_xls]] []) staged_world))
    = [[(js "excel_file", sheet_csv)]].
Proof.
  split; [vm_compute; reflexivity|].
  pose proof (success_unstages_what_was_picked_meanwhile
    (answering (ok_response None)) [Pick [rates_xls]] [] staged_world sheet_csv
    (ok_response None) eq_refl) as H.
  destruct H as (Hfile & _ & _ & Hrq & _); [by repeat split|].
  split; [exact Hfile|]. rewrite Hrq. reflexivity.
Defined.

(** ** Sessions at the screen *)

Lemma button_shows_staged_file (s : State) (b : Button) :
  button (render s) = Some b →
  ∃ f, file s = Some f ∧ disabled b = isUploading s.
Proof.
  unfold render. cbn [button]. destruct (file s) as [f|]; [|discriminate].
  intros [= <-]. by exists f.
Qed.

(** X11. In every session at the screen, gestures during submissions
    included: between events the busy flag is off; a staged file has one of
    the accepted media types; every request ever issued carries exactly one
    form field, [excel_file], holding a file of an accepted type, and asks
    for a blob; and there are never more downloads than requests. *)
Theorem only_validated_files_are_sent (w : World) :
  on_screen w →
  isUploading (state w) = false ∧
  (∀ f, file (state w) = Some f → type f ∈ accepted_media_types) ∧
  Forall well_formed_request (requests w) ∧
  (length (downloads w) ≤ length (requests w))%nat.
Proof.
  induction 1 as [| w g _ (Hbusy & Hfile & Hrq & Hdl)
                  | w env gs1 gs2 b _ (Hbusy & Hfile & Hrq & Hdl) Hbutton _].
  - repeat split; [by intros ? [=] | constructor | reflexivity].
  - destruct (gesture_handler_effect g w) as (s' & Hg & Heff).
    unfold exec. rewrite Hg. cbn [snd with_state state requests downloads].
    destruct Heff as [b | f b Hin | b]; cbn; repeat split; auto.
    + by intros ? [= <-].
    + by intros ? [=].
  - apply button_shows_staged_file in Hbutton as (f & Hf & _).
    pose proof (Hfile f Hf) as Hin.
    assert (Hnew : Forall well_formed_request (requests w ++ [upload_request env f])).
    { apply Forall_app_2; [done|]. constructor; [|constructor]. by exists f. }
    unfold exec.
    destruct (succeeds_or_fails env) as [[r Hok] | (e & n & Hfails)].
    + rewrite (handleUpload_during_succeeds env gs1 gs2 w f r Hf Hok).
      destruct (resumed_world env f gs1 gs2 0 w) as (Hrq' & Hdl' & _).
      cbn [snd state requests downloads isUploading file].
      rewrite Hrq', Hdl', !length_app. cbn [length].
      repeat split; [by intros ? [=] | done | lia].
    + rewrite (handleUpload_during_fails env gs1 gs2 w f e n Hf Hfails).
      destruct (resumed_world env f gs1 gs2 n w)
        as (Hrq' & Hdl' & (_ & Hkept & _) & _).
      cbn [snd state requests downloads isUploading file].
      rewrite Hrq', Hdl', !length_app. cbn [length].
      repeat split; [|done|lia].
      intros g Hg. destruct (Hkept g Hg) as [|Hsame]; [done|].
      cbn in Hsame. by apply Hfile.
Qed.

Lemma staged_world_on_screen : on_screen staged_world.
Proof.
  change staged_world with (exec (gesture_handler (Pick [sheet_csv])) initial_world).
  apply on_screen_gesture, on_screen_initial.
Qed.

Lemma only_validated_files_are_sent_witness :
  Forall well_formed_request
    (requests (exec (handleUpload_during (answering (ok_response None))
                       [Pick [notes_pdf]] []) staged_world)).
Proof.
  apply (only_validated_files_are_sent
           (exec (handleUpload_during (answering (ok_response None))
                    [Pick [notes_pdf]] []) staged_world)).
  eapply on_screen_click; [apply staged_world_on_screen | reflexivity | reflexivity].
Defined.

(** X12. In a session at the screen in which nothing is done while a
    submission is in flight, the error panel and the success text are never
    on screen together. *)
Theorem calm_sessions_show_one_message (w : World) :
  on_screen_calm w →
  (∃ m, error_slot (render (state w)) = ErrorBlank m) ∨
  success_slot (render (state w)) = None.
Proof.
  intros Hcalm.
  assert (Hinv : ToBoolean (message (error (state w))) = false ∨
                 successMessage (state w) = []).
  { induction Hcalm as [| w g _ IH | w env b _ _ Hbutton _].
    - by left.
    - destruct (gesture_handler_effect g w) as (s' & Hg & Heff).
      unfold exec. rewrite Hg. cbn [snd with_state state].
      destruct Heff as [b | f b Hin | b]; cbn; auto.
    - apply button_shows_staged_file in Hbutton as (f & Hf & _).
      unfold exec.
      destruct (succeeds_or_fails env) as [[r Hok] | (e & n & Hfails)].
      + rewrite (handleUpload_succeeds env w f r Hf Hok). by left.
      + rewrite (handleUpload_fails env w f e n Hf Hfails). by right. }
  unfold render. cbn [error_slot success_slot].
  destruct Hinv as [-> | ->]; [left; by eexists | by right].
Qed.

Lemma calm_sessions_show_one_message_witness :
  (∃ m, error_slot (render (state (exec (handleUpload (answering (ok_response None)))
                                     staged_world))) = ErrorBlank m) ∨
  success_slot (render (state (exec (handleUpload (answering (ok_response None)))
                                 staged_world))) = None.
Proof.
  apply (calm_sessions_show_one_message
           (exec (handleUpload (answering (ok_response None))) staged_world)).
  eapply calm_click; [|reflexivity|reflexivity].
  change staged_world with (exec (gesture_handler (Pick [sheet_csv])) initial_world).
  apply calm_gesture, calm_initial.
Defined.

(** ** Selections with no file *)

(** X13. A change of the file input that carries no file is handled as an
    invalid selection: whatever was staged is unstaged and the invalid-type
    error is shown.  A drop that carries no file only ends the dragging
    highlight, and leaves the staged file and both messages as they
    were. *)
Theorem empty_selection_unstages_empty_drop_does_not (w : World) :
  file (state (exec (handleFileChange []) w)) = None ∧
  message (error (state (exec (handleFileChange []) w)))
    = VString (js "Invalid file type. Please upload an Excel (.xlsx, .xls) or CSV (.csv) file.") ∧
  exec (handleDrop None) w =
    with_state w {| file := file (state w); isDragging := false;
                    isUploading := isUploading (state w); error := error (state w);
                    successMessage := successMessage (state w) |} ∧
  exec (handleDrop (Some [])) w = exec (handleDrop None) w.
Proof.
  unfold handleFileChange, exec. cbn [head].
  rewrite (validate_rejected w None) by (by intros ? [=]).
  by repeat split.
Qed.

(** ** Trying again *)

(** X15. A failed submission leaves nothing behind that changes the next
    one: submitting again ends in the same state as if the failed attempt
    had not been made, and the two requests carry the same form data. *)
Theorem retry_after_failure_starts_afresh
    (env1 env2 : Env) (w : World) (f : File) (e : Error) (n : nat) :
  file (state w) = Some f →
  fails env1 e n →
  state (exec (handleUpload env2) (exec (handleUpload env1) w))
    = state (exec (handleUpload env2) w) ∧
  requests (exec (handleUpload env2) (exec (handleUpload env1) w))
    = requests w ++ [upload_request env1 f; upload_request env2 f] ∧
  body (upload_request env1 f) = body (upload_request env2 f).
Proof.
  intros Hf Hfails. unfold exec.
  rewrite (handleUpload_fails env1 w f e n Hf Hfails). cbn [snd].
  set (w1 := {| state := _; requests := _; downloads := _; suspended := _ |}).
  assert (Hf1 : file (state w1) = Some f) by exact Hf.
  destruct (succeeds_or_fails env2) as [[r Hok] | (e2 & n2 & Hfails2)].
  - rewrite (handleUpload_succeeds env2 w1 f r Hf1 Hok),
      (handleUpload_succeeds env2 w f r Hf Hok).
    cbn. by rewrite <- app_assoc.
  - rewrite (handleUpload_fails env2 w1 f e2 n2 Hf1 Hfails2),
      (handleUpload_fails env2 w f e2 n2 Hf Hfails2).
    cbn. by rewrite <- app_assoc.
Qed.

Lemma retry_after_failure_starts_afresh_witness :
  state (exec (handleUpload (answering (ok_response None)))
           (exec (handleUpload (answering (error_response 400 bad_rows_body))) staged_world))
    = state (exec (handleUpload (answering (ok_response None))) staged_world).
Proof.
  apply (retry_after_failure_starts_afresh
           (answering (error_response 400 bad_rows_body)) (answering (ok_response None))
           staged_world sheet_csv
           (decoded_error
              (VObject [(js "message", VString (js "Bad rows"));
                        (js "details", VArray [VString (js "row 3 invalid")])])) 1
           eq_refl).
  apply (fails_structured _ (error_response 400 bad_rows_body) bad_rows_body);
    first [reflexivity | discriminate].
Defined.

(** ** What [ErrorMessage] puts on display *)

Lemma count_positive (n : nat) :
  greater_than_zero (VNumber (Number false (N.of_nat n) 0))
    = Normal (match n with O => false | S _ => true end).
Proof.
  unfold greater_than_zero, number_positive, rounds_to_zero.
  cbn [negative mantissa exponent10 negb andb Z.ltb Z.compare orb].
  destruct n as [|n]; [reflexivity|].
  destruct (N.eqb_spec (N.of_nat (S n)) 0) as [Hz|_]; [lia | reflexivity].
Qed.

Lemma ErrorMessage_text (m : jsstring) (ds : list jsstring) :
  ErrorMessage (VString m) (VArray (map VString ds)) = Normal (text_panel m ds).
Proof.
  unfold ErrorMessage, text_panel. cbn [ToBoolean length_of].
  rewrite count_positive. by destruct ds.
Qed.

Lemma text_children_valid (ds : list jsstring) :
  forallb valid_child (map VString ds) = true.
Proof. induction ds as [|d ds IH]; [reflexivity|]. exact IH. Qed.

(** An error made of a non-empty string and a list of strings is on display
    as it is. *)
Lemma displayed_text_error (s : State) (m : jsstring) (ds : list jsstring) :
  error s = text_error m ds →
  m ≠ [] →
  displayed s = Some {| tree := render s; panel := Some (text_panel m ds) |}.
Proof.
  intros He Hm. unfold displayed, render at 1. cbn [error_slot]. rewrite He.
  cbn [text_error message details ToBoolean].
  destruct m as [|c m]; [done|]. rewrite ErrorMessage_text.
  unfold text_panel. cbn [panel_message panel_details valid_child andb].
  destruct ds as [|d ds]; [reflexivity|].
  by rewrite (text_children_valid (d :: ds)).
Qed.

(** The error the validator sets is on display without a list. *)
Lemma displayed_invalid_type (s : State) :
  error s = {| message := VString invalid_file_type; details := VUndefined |} →
  displayed s =
    Some {| tree := render s;
            panel := Some {| panel_message := VString invalid_file_type;
                             panel_details := DetailsChild (VBool false) |} |}.
Proof.
  intros He. unfold displayed, render at 1. cbn [error_slot]. by rewrite He.
Qed.

Lemma displayed_without_error (s : State) :
  ToBoolean (message (error s)) = false →
  displayed s = Some {| tree := render s; panel := None |}.
Proof.
  intros He. unfold displayed, render at 1. cbn [error_slot]. by rewrite He.
Qed.

(** Details that are a non-empty string make [ErrorMessage] throw, and the
    tree goes. *)
Lemma displayed_string_details (s : State) (m : value) (d : jsstring) :
  error s = {| message := m; details := VString d |} →
  ToBoolean m = true →
  d ≠ [] →
  displayed s = None.
Proof.
  intros He Hm Hd. unfold displayed, render at 1. cbn [error_slot].
  rewrite He. cbn [message details]. rewrite Hm.
  destruct d as [|c d]; [done|]. unfold ErrorMessage.
  cbn [ToBoolean length_of]. by rewrite count_positive.
Qed.

(** ** Selections while a submission is in flight *)

Lemma no_selection_effect (g : gesture) (w : World) :
  selection g = None →
  ∃ b, gesture_handler g w =
         (Normal (),
          with_state w {| file := file (state w); isDragging := b;
                          isUploading := isUploading (state w);
                          error := error (state w);
                          successMessage := successMessage (state w) |}).
Proof.
  destruct g as [files | [[|f files]|] | | ]; try discriminate; intros _.
  - by exists false.
  - by exists false.
  - by exists true.
  - by exists false.
Qed.

Lemma meanwhile_no_selection (gs : list gesture) (w : World) :
  Forall (λ g, selection g = None) gs →
  ∃ b, state (exec (meanwhile gs) w) =
         {| file := file (state w); isDragging := b;
            isUploading := isUploading (state w); error := error (state w);
            successMessage := successMessage (state w) |}.
Proof.
  intros Hgs. revert w. induction Hgs as [|g gs Hg _ IH]; intros w.
  - exists (isDragging (state w)). by destruct w as [[]].
  - destruct (no_selection_effect g w Hg) as [b Hrun].
    unfold exec at 1. rewrite meanwhile_cons.
    unfold exec at 2. rewrite Hrun.
    destruct (IH (exec await_point
                    (with_state w {| file := file (state w); isDragging := b;
                                     isUploading := isUploading (state w);
                                     error := error (state w);
                                     successMessage := successMessage (state w) |})))
      as [b' Hstate].
    exists b'. unfold exec in Hstate |- *. cbn [snd] in *. exact Hstate.
Qed.

Lemma rejected_selection_effect (g : gesture) (w : World) :
  rejected_selection g →
  error (state (exec (gesture_handler g) w))
    = {| message := VString invalid_file_type; details := VUndefined |}.
Proof.
  intros (selectedFile & Hsel & Hbad). unfold exec.
  destruct g as [files | [[|f files]|] | | ]; try discriminate; cbn [gesture_handler].
  - injection Hsel as <-. unfold handleFileChange.
    by rewrite (validate_rejected w (head files) Hbad).
  - injection Hsel as <-. unfold handleDrop, mbind, M_bind, setIsDragging, modify.
    by rewrite (validate_rejected _ (Some f) Hbad).
Qed.

(** After a rejected selection followed by gestures that select nothing, the
    invalid-type error is still the error. *)
Lemma rejected_selection_stays (before after : list gesture) (g : gesture) (w : World) :
  rejected_selection g →
  Forall (λ g', selection g' = None) after →
  error (state (exec (meanwhile (before ++ g :: after)) w))
    = {| message := VString invalid_file_type; details := VUndefined |}.
Proof.
  intros Hg Hafter. rewrite meanwhile_app.
  generalize (exec (meanwhile before) w). intros w1.
  unfold exec at 1. rewrite meanwhile_cons.
  destruct (meanwhile_no_selection after
              (exec await_point (exec (gesture_handler g) w1)) Hafter) as [b Hstate].
  unfold exec at 1 in Hstate. rewrite Hstate. cbn [error].
  exact (rejected_selection_effect g w1 Hg).
Qed.


(** ** The two messages, with gestures in between *)




(** ** What a submission leaves behind *)

(** X6. A submission made with a Candidate File present, with no other
    handler run while it is in flight, ends in one of two ways.  After a
    success the success message is set and the error is cleared:
    [FileUpload] returns the success text and no [ErrorMessage] element.
    After a failure the success message is empty and the error is the
    failure's, its message truthy: [FileUpload] returns an [ErrorMessage]
    element with that message and those details as props, and no success
    text. *)
Theorem lone_submission_leaves_one_message (env : Env) (w : World) (f : File) :
  file (state w) = Some f →
  (∃ r, succeeds env r ∧
        successMessage (state (exec (handleUpload env) w))
          = js "File processed and download started!" ∧
        error (state (exec (handleUpload env) w)) = no_error ∧
        success_slot (render (state (exec (handleUpload env) w)))
          = Some (js "File processed and download started!") ∧
        error_slot (render (state (exec (handleUpload env) w)))
          = ErrorBlank (VString [])) ∨
  (∃ e n, fails env e n ∧
          error (state (exec (handleUpload env) w)) = e ∧
          successMessage (state (exec (handleUpload env) w)) = [] ∧
          ToBoolean (message e) = true ∧
          error_slot (render (state (exec (handleUpload env) w)))
            = ErrorPanel (message e) (details e) ∧
          success_slot (render (state (exec (handleUpload env) w))) = None).
Proof.
  intros Hf.
  destruct (succeeds_or_fails env) as [[r Hok] | (e & n & Hfails)].
  - left. exists r. unfold exec.
    rewrite (handleUpload_succeeds env w f r Hf Hok). cbn [snd state].
    split; [done|]. repeat split.
  - right. exists e, n. pose proof (fails_message_truthy env e n Hfails) as Htrue.
    unfold exec. rewrite (handleUpload_fails env w f e n Hf Hfails). cbn [snd state].
    split; [done|]. split; [reflexivity|]. split; [reflexivity|]. split; [done|].
    split; [unfold render; cbn [error_slot error]; by rewrite Htrue|].
    reflexivity.
Qed.

Lemma lone_submission_leaves_one_message_witness :
  (∃ r, succeeds (answering (error_response 400 bad_rows_body)) r ∧
        successMessage (state (exec (handleUpload (answering (error_response 400 bad_rows_body))) staged_world))
          = js "File processed and download started!" ∧
        error (state (exec (handleUpload (answering (error_response 400 bad_rows_body))) staged_world)) = no_error ∧
        success_slot (render (state (exec (handleUpload (answering (error_response 400 bad_rows_body))) staged_world)))
          = Some (js "File processed and download started!") ∧
        error_slot (render (state (exec (handleUpload (answering (error_response 400 bad_rows_body))) staged_world)))
          = ErrorBlank (VString [])) ∨
  (∃ e n, fails (answering (error_response 400 bad_rows_body)) e n ∧
          error (state (exec (handleUpload (answering (error_response 400 bad_rows_body))) staged_world)) = e ∧
          successMessage (state (exec (handleUpload (answering (error_response 400 bad_rows_body))) staged_world)) = [] ∧
          ToBoolean (message e) = true ∧
          error_slot (render (state (exec (handleUpload (answering (error_response 400 bad_rows_body))) staged_world)))
            = ErrorPanel (message e) (details e) ∧
          success_slot (render (state (exec (handleUpload (answering (error_response 400 bad_rows_body))) staged_world))) = None).
Proof.
  apply (lone_submission_leaves_one_message
           (answering (error_response 400 bad_rows_body)) staged_world sheet_csv eq_refl).
Defined.

(** X9. When the last selection made while a submission is in flight, a
    change of the file input or a drop that carries a file, is rejected (no
    file, or a type that is not accepted), whatever drag events and drops
    without a file follow it, and the submission then succeeds, both the
    invalid-type error and the success message are set: [FileUpload]
    returns the [ErrorMessage] element with that error and the success
    text together.  The continuation sets the success message and does not
    clear the error again. *)
Theorem rejected_selection_then_success_shows_both
    (env : Env) (before after gs2 : list gesture) (g : gesture)
    (w : World) (f : File) (r : Response) :
  file (state w) = Some f →
  succeeds env r →
  rejected_selection g →
  Forall (λ g', selection g' = None) after →
  error (state (exec (handleUpload_during env (before ++ g :: after) gs2) w))
    = {| message := VString (js "Invalid file type. Please upload an Excel (.xlsx, .xls) or CSV (.csv) file.");
         details := VUndefined |} ∧
  successMessage (state (exec (handleUpload_during env (before ++ g :: after) gs2) w))
    = js "File processed and download started!" ∧
  error_slot (render (state (exec (handleUpload_during env (before ++ g :: after) gs2) w)))
    = ErrorPanel
        (VString (js "Invalid file type. Please upload an Excel (.xlsx, .xls) or CSV (.csv) file."))
        VUndefined ∧
  success_slot (render (state (exec (handleUpload_during env (before ++ g :: after) gs2) w)))
    = Some (js "File processed and download started!").
Proof.
  intros Hf Hok Hg Hafter.
  pose proof (rejected_selection_stays before after g (begun env f w) Hg Hafter) as Herr.
  unfold exec.
  rewrite (handleUpload_during_succeeds env _ gs2 w f r Hf Hok).
  unfold render.
  cbn [snd state resumed error successMessage error_slot success_slot].
  rewrite Herr. by repeat split.
Qed.

Lemma rejected_selection_then_success_shows_both_witness :
  error (state (exec (handleUpload_during (answering (ok_response None))
                        ([Over] ++ DropOn (Some [notes_pdf]) :: [Leave; DropOn None]) [])
                  staged_world))
    = {| message := VString invalid_file_type; details := VUndefined |} ∧
  successMessage (state (exec (handleUpload_during (answering (ok_response None))
                                 ([Over] ++ DropOn (Some [notes_pdf]) :: [Leave; DropOn None]) [])
                           staged_world))
    = download_started.
Proof.
  pose proof (rejected_selection_then_success_shows_both (answering (ok_response None))
    [Over] [Leave; DropOn None] [] (DropOn (Some [notes_pdf]))
    staged_world sheet_csv (ok_response None) eq_refl) as H.
  destruct H as (He & Hs & _).
  - by repeat split.
  - exists (Some notes_pdf). split; [reflexivity|].
    intros f' [= <-]. apply (bool_decide_unpack _). vm_compute. reflexivity.
  - by repeat constructor.
  - by split.
Defined.



(** ** What a failure puts on display *)

(** X16. When a submission fails with a JSON body whose [details] is a
    non-empty string, [ErrorMessage] is handed that string, [details.map]
    is not a function, rendering throws, and nothing is left on display. *)
Theorem string_details_leave_nothing_on_display
    (env : Env) (gs1 gs2 : list gesture) (w : World) (f : File)
    (r : Response) (t : jsstring) (v : value) (d : jsstring) :
  file (state w) = Some f →
  exchange env = Answered r →
  is_2xx r = false →
  data r = BlobData (Some t) →
  JSON_parse t = Some v →
  property v (js "details") = VString d →
  d ≠ [] →
  details (error (state (exec (handleUpload_during env gs1 gs2) w))) = VString d ∧
  ErrorMessage (message (error (state (exec (handleUpload_during env gs1 gs2) w))))
               (details (error (state (exec (handleUpload_during env gs1 gs2) w))))
    = Throw TypeError ∧
  displayed (state (exec (handleUpload_during env gs1 gs2) w)) = None.
Proof.
  intros Hf Hx H2 Hd Hp Hdetails Hne.
  assert (Hobject : v ≠ VNull ∧ v ≠ VUndefined).
  { split; intros ->; cbn in Hdetails; discriminate. }
  assert (Hfails : fails env (decoded_error v) 1).
  { eapply fails_structured; eauto; apply Hobject. }
  pose proof (fails_message_truthy env _ _ Hfails) as Htrue.
  assert (He : decoded_error v
               = {| message := message (decoded_error v); details := VString d |}).
  { unfold decoded_error. cbn [message]. rewrite Hdetails.
    destruct d as [|c d]; [done|]. reflexivity. }
  unfold exec.
  rewrite (handleUpload_during_fails env gs1 gs2 w f _ 1 Hf Hfails).
  cbn [snd state error]. rewrite He. cbn [details message].
  split; [reflexivity|]. split.
  - destruct d as [|c d]; [done|]. unfold ErrorMessage.
    cbn [ToBoolean length_of]. by rewrite count_positive.
  - apply (displayed_string_details _ (message (decoded_error v)) d); [|done|done].
    cbn [error]. reflexivity.
Qed.

Lemma string_details_leave_nothing_on_display_witness :
  displayed (state (exec (handleUpload_during
                            (answering (error_response 400 string_details_body)) [] [])
                      staged_world)) = None.
Proof.
  apply (string_details_leave_nothing_on_display
           (answering (error_response 400 string_details_body)) [] [] staged_world
           sheet_csv (error_response 400 string_details_body) string_details_body
           (VObject [(js "details", VString (js "x"))]) (js "x"));
    first [reflexivity | discriminate].
Defined.

(** X17. When a submission fails with an error whose message is a string
    and whose details are a list of strings, as the generic error, the
    fallbacks and the bodies of the error contract give, the panel is on
    display with that message and, when there are details, the list of them
    in order; there is no list when there are none. *)
Theorem text_error_is_on_display
    (env : Env) (gs1 gs2 : list gesture) (w : World) (f : File)
    (m : jsstring) (ds : list jsstring) (n : nat) :
  file (state w) = Some f →
  fails env (text_error m ds) n →
  ErrorMessage (VString m) (VArray (map VString ds))
    = Normal {| panel_message := VString m;
                panel_details :=
                  match ds with
                  | [] => DetailsChild (VBool false)
                  | _ => DetailsList (map VString ds)
                  end |} ∧
  displayed (state (exec (handleUpload_during env gs1 gs2) w))
    = Some {| tree := render (state (exec (handleUpload_during env gs1 gs2) w));
              panel := Some (text_panel m ds) |}.
Proof.
  intros Hf Hfails. pose proof (fails_message_truthy env _ _ Hfails) as Htrue.
  split; [apply ErrorMessage_text|].
  apply displayed_text_error.
  - unfold exec. by rewrite (handleUpload_during_fails env gs1 gs2 w f _ n Hf Hfails).
  - intros ->. discriminate Htrue.
Qed.

Lemma text_error_is_on_display_witness :
  displayed (state (exec (handleUpload_during (answering (error_response 400 bad_rows_body))
                            [Over] [Leave]) staged_world))
    = Some {| tree := render (state (exec (handleUpload_during
                                              (answering (error_response 400 bad_rows_body))
                                              [Over] [Leave]) staged_world));
              panel := Some {| panel_message := VString (js "Bad rows");
                               panel_details := DetailsList [VString (js "row 3 invalid")] |} |}.
Proof.
  apply (text_error_is_on_display
           (answering (error_response 400 bad_rows_body)) [Over] [Leave]
           staged_world sheet_csv (js "Bad rows") [js "row 3 invalid"] 1 eq_refl).
  apply (fails_structured _ (error_response 400 bad_rows_body) bad_rows_body
           (VObject [(js "message", VString (js "Bad rows"));
                     (js "details", VArray [VString (js "row 3 invalid")])]));
    first [reflexivity | discriminate].
Defined.
